(** * valasztas-hu-scraper: a shallow embedding of [scraper.py]

    The program turns the rows of an election-results workbook into GeoJSON
    features.  Every row is enriched with a settlement code (looked up
    remotely, cached by name) and with the boundary polygon of its polling
    station (looked up remotely, null on failure).

    Layout of the development:
    - Python values: strings, exceptions, JSON, workbook cells;
    - the fragment of Python's [re] syntax reached by [get_settlement_code];
    - the collaborators that are not part of the repository ([Platform]);
    - the state-and-exception monad and the three generators of the script;
    - properties of the resolver, the adapter, the fetcher and [run]. *)

From Stdlib Require Import ZArith NArith Lia SpecFloat.
From Stdlib Require Decimal DecimalFacts DecimalPos DecimalN DecimalZ.
From stdpp Require Import gmap list strings.

Set Default Proof Using "Type".
#[global] Set Warnings "-register-all".

(** ** Python strings

    A Python [str] is a sequence of Unicode code points.  Literals of the
    script are written with [py], which reads an ASCII literal. *)

Abbreviation pystr := (list N).

Definition py (s : string) : pystr :=
  map Ascii.N_of_ascii (String.list_ascii_of_string s).

(** [str(n)] for a Python [int]: decimal digits, a leading minus sign for
    negative numbers, no leading zeros. *)
Fixpoint digits (u : Decimal.uint) : pystr :=
  match u with
  | Decimal.Nil => []
  | Decimal.D0 u' => 48%N :: digits u'
  | Decimal.D1 u' => 49%N :: digits u'
  | Decimal.D2 u' => 50%N :: digits u'
  | Decimal.D3 u' => 51%N :: digits u'
  | Decimal.D4 u' => 52%N :: digits u'
  | Decimal.D5 u' => 53%N :: digits u'
  | Decimal.D6 u' => 54%N :: digits u'
  | Decimal.D7 u' => 55%N :: digits u'
  | Decimal.D8 u' => 56%N :: digits u'
  | Decimal.D9 u' => 57%N :: digits u'
  end.

Definition str_int (z : Z) : pystr :=
  match Z.to_int z with
  | Decimal.Pos u => digits u
  | Decimal.Neg u => 45%N :: digits u
  end.

(** The format specification [02] of an f-string applied to a non-negative
    [int]: the decimal rendering, filled with zeros on the left up to width
    two. *)
Definition format_02 (n : nat) : pystr :=
  let s := str_int (Z.of_nat n) in
  replicate (2 - length s) 48%N ++ s.

(** ** The fragment of [re] patterns that is modelled

    [get_settlement_code] interpolates the settlement name into the pattern
    [^NAME(?: .+)?$], so the pattern that is compiled depends on the input.
    The parser below covers literals, [.], [^], [$], [|], groups [( )] and
    [(?: )], the repetitions [*], [+], [?] (greedy or lazy) and a backslash
    before a character that is not an ASCII letter or digit.  Everything else
    (classes, counted repetition, the other [(?] extensions, escapes of
    letters and digits, possessive repetition) is reported as [Unsupported]
    and left to the platform's own [re]. *)

Inductive regex : Type :=
  | REmpty
  | RLit (c : N)
  | RAny
  | RBol
  | REol
  | RSeq (r1 r2 : regex)
  | RAlt (r1 r2 : regex)
  | RGroup (r : regex)
  | ROpt (r : regex)
  | RStar (r : regex)
  | RPlus (r : regex).

Inductive compiled : Type :=
  | Parsed (r : regex)
  | Invalid
  | Unsupported.

(** The fourteen characters that the [re] documentation calls special. *)
Definition special : pystr := py ".^$*+?{}[]\|()".

Definition is_special (c : N) : bool := bool_decide (c ∈ special).

Definition is_ascii_alnum (c : N) : bool :=
  ((48 <=? c) && (c <=? 57) || (65 <=? c) && (c <=? 90)
   || (97 <=? c) && (c <=? 122))%N.

(** Items of a branch are kept in reverse order while parsing. *)
Definition seq_of (items : list regex) : regex :=
  foldr RSeq REmpty items.

Definition branch_of (rev_items : list regex) : regex :=
  seq_of (rev rev_items).

(** [alts] holds the finished branches of the current group, latest first. *)
Definition alt_of (alts : list regex) (last : regex) : regex :=
  fold_left (fun acc r => RAlt r acc) alts last.

Record frame : Type := Frame {
  frame_alts : list regex;
  frame_items : list regex
}.

Inductive repeat_kind : Type := KStar | KPlus | KOpt.

Definition apply_repeat (k : repeat_kind) (r : regex) : regex :=
  match k with
  | KStar => RStar r
  | KPlus => RPlus r
  | KOpt => ROpt r
  end.

(** What [sre_parse] checks before it repeats the last item of a branch:
    there must be one, it must not be an anchor and it must not be a
    repetition already. *)
Definition repeat_last (k : repeat_kind) (items : list regex)
  : option (list regex) :=
  match items with
  | [] => None
  | RBol :: _ | REol :: _ => None
  | ROpt _ :: _ | RStar _ :: _ | RPlus _ :: _ => None
  | r :: items' => Some (apply_repeat k r :: items')
  end.

Definition repeat_of_char (c : N) : option repeat_kind :=
  if (c =? 42)%N then Some KStar
  else if (c =? 43)%N then Some KPlus
  else if (c =? 63)%N then Some KOpt
  else None.

Fixpoint parse (p : pystr) (stack : list frame) (alts items : list regex)
  {struct p} : compiled :=
  match p with
  | [] =>
      match stack with
      | [] => Parsed (alt_of alts (branch_of items))
      | _ :: _ => Invalid
      end
  | c :: p' =>
      match repeat_of_char c with
      | Some k =>
          match repeat_last k items with
          | None => Invalid
          | Some items' =>
              match p' with
              | c' :: p'' =>
                  if (c' =? 63)%N then parse p'' stack alts items'
                  else if (c' =? 43)%N then Unsupported
                  else parse p' stack alts items'
              | [] => parse p' stack alts items'
              end
          end
      | None =>
          if (c =? 40)%N then
            match p' with
            | c1 :: p1 =>
                if (c1 =? 63)%N then
                  match p1 with
                  | c2 :: p2 =>
                      if (c2 =? 58)%N
                      then parse p2 (Frame alts items :: stack) [] []
                      else Unsupported
                  | [] => Invalid
                  end
                else parse p' (Frame alts items :: stack) [] []
            | [] => parse p' (Frame alts items :: stack) [] []
            end
          else if (c =? 41)%N then
            match stack with
            | [] => Invalid
            | Frame alts0 items0 :: stack' =>
                parse p' stack' alts0
                  (RGroup (alt_of alts (branch_of items)) :: items0)
            end
          else if (c =? 124)%N then
            parse p' stack (branch_of items :: alts) []
          else if (c =? 46)%N then parse p' stack alts (RAny :: items)
          else if (c =? 94)%N then parse p' stack alts (RBol :: items)
          else if (c =? 36)%N then parse p' stack alts (REol :: items)
          else if (c =? 92)%N then
            match p' with
            | c1 :: p1 =>
                if is_ascii_alnum c1 then Unsupported
                else parse p1 stack alts (RLit c1 :: items)
            | [] => Invalid
            end
          else if (c =? 91)%N || (c =? 123)%N then Unsupported
          else parse p' stack alts (RLit c :: items)
      end
  end.

Definition re_compile (pattern : pystr) : compiled :=
  parse pattern [] [] [].

(** *** Matching

    [Pattern.match] succeeds when some prefix of the subject, taken from
    its first character, is matched.  The matcher is written in
    continuation-passing style like a backtracking engine: [at_start] tells
    whether no character has been consumed yet, and the continuation receives
    what is left of the subject. *)

Definition cont := bool -> pystr -> bool.

(** A repetition either stops or runs its body once more; an iteration that
    consumes nothing is cut, so [n] iterations suffice for [n] characters. *)
Fixpoint star_loop (body : bool -> pystr -> cont -> bool) (n : nat)
  (at_start : bool) (s : pystr) (k : cont) : bool :=
  k at_start s ||
  match n with
  | O => false
  | S n' =>
      body at_start s (fun at_start' s' =>
        (length s' <? length s) && star_loop body n' at_start' s' k)
  end.

Fixpoint re_run (r : regex) (at_start : bool) (s : pystr) (k : cont)
  {struct r} : bool :=
  match r with
  | REmpty => k at_start s
  | RLit c =>
      match s with
      | c' :: s' => (c =? c')%N && k false s'
      | [] => false
      end
  | RAny =>
      match s with
      | c' :: s' => negb (c' =? 10)%N && k false s'
      | [] => false
      end
  | RBol => at_start && k at_start s
  | REol =>
      match s with
      | [] => k at_start s
      | [c'] => (c' =? 10)%N && k at_start s
      | _ => false
      end
  | RSeq r1 r2 =>
      re_run r1 at_start s (fun at_start' s' => re_run r2 at_start' s' k)
  | RAlt r1 r2 => re_run r1 at_start s k || re_run r2 at_start s k
  | RGroup r' => re_run r' at_start s k
  | ROpt r' => re_run r' at_start s k || k at_start s
  | RStar r' => star_loop (re_run r') (length s) at_start s k
  | RPlus r' =>
      re_run r' at_start s (fun at_start' s' =>
        star_loop (re_run r') (length s') at_start' s' k)
  end.

Definition re_match (r : regex) (subject : pystr) : bool :=
  re_run r true subject (fun _ _ => true).


(** ** JSON values and the Python operations applied to them *)

Inductive json : Type :=
  | JNull
  | JBool (b : bool)
  | JInt (z : Z)
  | JFloat (f : spec_float)
  | JStr (s : pystr)
  | JArr (items : list json)
  | JObj (members : list (pystr * json)).

(** ** Exceptions and results

    [Exception] is the error that [get_settlement_code] raises: its message
    interpolates the settlement name, the text of the error that was caught
    and the request parameters; the caught error is also its context. *)

Inductive exn : Type :=
  | KeyError (key : pystr)
  | IndexError
  | TypeError
  | ValueError
  | OverflowError
  | StopIteration
  | re_error
  | JSONDecodeError
  | ClientError (detail : pystr)
  | LibraryError (detail : pystr)
  | Exception (settlement_name : pystr) (cause : exn)
      (params : gmap pystr json).

Inductive result (A : Type) : Type :=
  | Ok (a : A)
  | Raise (e : exn).
Arguments Ok {A} a.
Arguments Raise {A} e.

Definition rbind {A B} (r : result A) (f : A -> result B) : result B :=
  match r with
  | Ok a => f a
  | Raise e => Raise e
  end.

Declare Scope result_scope.
Delimit Scope result_scope with result.
Notation "x <~ r ;; k" := (rbind r (fun x => k))
  (at level 100, r at next level, right associativity) : result_scope.

Fixpoint rmapM {A B} (f : A -> result B) (l : list A) : result (list B) :=
  match l with
  | [] => Ok []
  | a :: l' =>
      (b <~ f a ;; bs <~ rmapM f l' ;; Ok (b :: bs))%result
  end.

(** [d[key]] on an association list that stands for a [dict] (the first
    entry of a key is the one the dict holds). *)
Fixpoint assoc {V} (key : pystr) (d : list (pystr * V)) : option V :=
  match d with
  | [] => None
  | (k, v) :: d' => if decide (k = key) then Some v else assoc key d'
  end.

(** [v[key]] with a string key: only a dict can be subscripted that way. *)
Definition getitem (v : json) (key : pystr) : result json :=
  match v with
  | JObj members =>
      match assoc key members with
      | Some x => Ok x
      | None => Raise (KeyError key)
      end
  | _ => Raise TypeError
  end.

(** [for x in v]: a list gives its items, a dict its keys, a string its
    characters; the other JSON values are not iterable. *)
Definition iter_json (v : json) : result (list json) :=
  match v with
  | JArr items => Ok items
  | JObj members => Ok (map (fun kv => JStr kv.1) members)
  | JStr s => Ok (map (fun c => JStr [c]) s)
  | _ => Raise TypeError
  end.

(** ** The workbook *)

Inductive cell : Type :=
  | CNone
  | CInt (z : Z)
  | CFloat (f : spec_float)
  | CStr (s : pystr).

Record worksheet : Type := Worksheet {
  title : pystr;
  values : list (list cell)
}.

(** [row[i]] on a tuple. *)
Definition index {A} (row : list A) (i : nat) : result A :=
  match row !! i with
  | Some x => Ok x
  | None => Raise IndexError
  end.

(** [int(x)] on a [float]: truncation towards zero. *)
Definition int_of_float (f : spec_float) : result Z :=
  match f with
  | S754_zero _ => Ok 0%Z
  | S754_infinity _ => Raise OverflowError
  | S754_nan => Raise ValueError
  | S754_finite neg m e =>
      let magnitude := Z.shiftl (Z.pos m) e in
      Ok (if neg then (- magnitude)%Z else magnitude)
  end.

Inductive WorksheetColumns : Type :=
  | COUNTY | SETTLEMENT | STATION_NO
  | NOMINAL_VOTER_COUNT | ACTUAL_VOTER_COUNT
  | BALLOTS_WITHOUT_STAMP | BALLOTS_STAMPED | BALLOT_TO_ACTUAL_VOTERS_DIFF
  | INVALID_BALLOTS | VALID_BALLOTS
  | BALLOT_COUNT_MSZP_PARBESZED | BALLOT_COUNT_MKKP | BALLOT_COUNT_JOBBIK
  | BALLOT_COUNT_FIDESZ | BALLOT_COUNT_MOMENTUM | BALLOT_COUNT_DK
  | BALLOT_COUNT_MI_HAZANK | BALLOT_COUNT_MUNKASPART | BALLOT_COUNT_LMP.

Definition column_value (field : WorksheetColumns) : nat :=
  match field with
  | COUNTY => 1 | SETTLEMENT => 2 | STATION_NO => 3
  | NOMINAL_VOTER_COUNT => 4 | ACTUAL_VOTER_COUNT => 5
  | BALLOTS_WITHOUT_STAMP => 6 | BALLOTS_STAMPED => 7
  | BALLOT_TO_ACTUAL_VOTERS_DIFF => 8
  | INVALID_BALLOTS => 9 | VALID_BALLOTS => 10
  | BALLOT_COUNT_MSZP_PARBESZED => 11 | BALLOT_COUNT_MKKP => 12
  | BALLOT_COUNT_JOBBIK => 13 | BALLOT_COUNT_FIDESZ => 14
  | BALLOT_COUNT_MOMENTUM => 15 | BALLOT_COUNT_DK => 16
  | BALLOT_COUNT_MI_HAZANK => 17 | BALLOT_COUNT_MUNKASPART => 18
  | BALLOT_COUNT_LMP => 19
  end.

Definition column_name (field : WorksheetColumns) : pystr :=
  match field with
  | COUNTY => py "COUNTY" | SETTLEMENT => py "SETTLEMENT"
  | STATION_NO => py "STATION_NO"
  | NOMINAL_VOTER_COUNT => py "NOMINAL_VOTER_COUNT"
  | ACTUAL_VOTER_COUNT => py "ACTUAL_VOTER_COUNT"
  | BALLOTS_WITHOUT_STAMP => py "BALLOTS_WITHOUT_STAMP"
  | BALLOTS_STAMPED => py "BALLOTS_STAMPED"
  | BALLOT_TO_ACTUAL_VOTERS_DIFF => py "BALLOT_TO_ACTUAL_VOTERS_DIFF"
  | INVALID_BALLOTS => py "INVALID_BALLOTS"
  | VALID_BALLOTS => py "VALID_BALLOTS"
  | BALLOT_COUNT_MSZP_PARBESZED => py "BALLOT_COUNT_MSZP_PARBESZED"
  | BALLOT_COUNT_MKKP => py "BALLOT_COUNT_MKKP"
  | BALLOT_COUNT_JOBBIK => py "BALLOT_COUNT_JOBBIK"
  | BALLOT_COUNT_FIDESZ => py "BALLOT_COUNT_FIDESZ"
  | BALLOT_COUNT_MOMENTUM => py "BALLOT_COUNT_MOMENTUM"
  | BALLOT_COUNT_DK => py "BALLOT_COUNT_DK"
  | BALLOT_COUNT_MI_HAZANK => py "BALLOT_COUNT_MI_HAZANK"
  | BALLOT_COUNT_MUNKASPART => py "BALLOT_COUNT_MUNKASPART"
  | BALLOT_COUNT_LMP => py "BALLOT_COUNT_LMP"
  end.

(** [[*WorksheetColumns]]: the members in the order of their definition. *)
Definition all_columns : list WorksheetColumns :=
  [ COUNTY; SETTLEMENT; STATION_NO; NOMINAL_VOTER_COUNT; ACTUAL_VOTER_COUNT;
    BALLOTS_WITHOUT_STAMP; BALLOTS_STAMPED; BALLOT_TO_ACTUAL_VOTERS_DIFF;
    INVALID_BALLOTS; VALID_BALLOTS; BALLOT_COUNT_MSZP_PARBESZED;
    BALLOT_COUNT_MKKP; BALLOT_COUNT_JOBBIK; BALLOT_COUNT_FIDESZ;
    BALLOT_COUNT_MOMENTUM; BALLOT_COUNT_DK; BALLOT_COUNT_MI_HAZANK;
    BALLOT_COUNT_MUNKASPART; BALLOT_COUNT_LMP ].

(** The values of [PollingStationApiParamNames]. *)
Definition SETTLEMENT_CODE_param : pystr :=
  py "_onkszavazokorieredmenyek_WAR_nvinvrportlet_telepulesKod".
Definition COUNTY_CODE_param : pystr :=
  py "_onkszavazokorieredmenyek_WAR_nvinvrportlet_megyeKod".
Definition STATION_NO_param : pystr :=
  py "_onkszavazokorieredmenyek_WAR_nvinvrportlet_szavkorSorszam".

Record PollingStation : Type := mkPollingStation {
  api_params : gmap pystr json;
  properties : list (pystr * cell)
}.

Record Feature : Type := mkFeature {
  geometry : option json;
  feature_properties : list (pystr * cell)
}.

Record FeatureCollection : Type := mkFeatureCollection {
  features : list Feature
}.

(** ** Constants of the script *)

Definition API_BASE_URL : pystr :=
  py "https://www.valasztas.hu/szavazokorok_onk2019".

Definition dict (entries : list (string * string)) : gmap pystr json :=
  list_to_map (map (fun kv => (py kv.1, JStr (py kv.2))) entries).

(** [{**a, **b}]: the entries of [b] win. *)
Definition merge_dicts (a b : gmap pystr json) : gmap pystr json := b ∪ a.

Definition API_COMMON_PARAMS : gmap pystr json :=
  dict [ ("p_p_lifecycle", "2");
         ("p_p_state", "maximized");
         ("p_p_mode", "view");
         ("p_p_cacheability", "cacheLevelPage");
         ("_onkszavazokorieredmenyek_WAR_nvinvrportlet_vlId", "294");
         ("_onkszavazokorieredmenyek_WAR_nvinvrportlet_vltId", "687") ]%string.

Definition API_GET_MAP_DATA_PARAMS : gmap pystr json :=
  merge_dicts API_COMMON_PARAMS
    (dict [ ("p_p_id", "onkszavazokorieredmenyek_WAR_nvinvrportlet");
            ("p_p_resource_id", "resourceIdGetElectionMapData");
            ("_onkszavazokorieredmenyek_WAR_nvinvrportlet_tabId", "tab2")
          ]%string).

Definition API_SEARCH_PARAMS : gmap pystr json :=
  merge_dicts API_COMMON_PARAMS
    (dict [ ("p_p_id", "onkszavazokorok_WAR_nvinvrportlet");
            ("p_p_resource_id", "resourceIdGetTelepulesOrMegye") ]%string).

Definition keywords_param : pystr :=
  py "_onkszavazokorok_WAR_nvinvrportlet_keywords".

(** ** Collaborators outside the repository

    The remote service, [json.loads], [int] on text, shapely's [Polygon] and
    [mapping], and the part of [re] beyond the modelled fragment are taken
    as given.  The remote service is an oracle with its own state: a request
    either fails in transit ([session.get] raises) or produces a response,
    whose body [response.json()] then decodes or fails to decode. *)

Record request : Type := mkRequest {
  url : pystr;
  params : gmap pystr json
}.

Record response : Type := mkResponse {
  status : Z;
  json_body : result json
}.

Class Platform : Type := {
  world : Type;
  session_get : request -> world -> result response * world;
  json_loads : pystr -> result json;
  int_of_str : pystr -> result Z;
  polygon : Type;
  Polygon : list (json * json) -> result polygon;
  mapping : polygon -> result json;
  re_other : pystr -> result (pystr -> bool)
}.

(** ** State and exceptions

    The script mutates the module-level cache, talks to the network and
    prints.  [requests] records every request that was sent, in order:
    it is how "no remote call" is observed.  Logging is left out: the calls
    to [logger] and [get_polling_station_repr], which reads three
    properties that every record has, neither raise nor change a value. *)

Record state {platform : Platform} : Type := mkState {
  SETTLEMENT_CODE_CACHE : gmap pystr json;
  net : world;
  requests : list request;
  stdout : list FeatureCollection
}.
Arguments mkState {_} _ _ _ _.

Section Program.
Context {platform : Platform}.

Definition M (A : Type) : Type := state -> result A * state.

Definition ret {A} (a : A) : M A := fun s => (Ok a, s).
Definition raise {A} (e : exn) : M A := fun s => (Raise e, s).
Definition lift {A} (r : result A) : M A := fun s => (r, s).

Definition bind {A B} (m : M A) (f : A -> M B) : M B :=
  fun s =>
    match m s with
    | (Ok a, s') => f a s'
    | (Raise e, s') => (Raise e, s')
    end.

Notation "x <- m ;; k" := (bind m (fun x => k))
  (at level 100, m at next level, right associativity).

(** A [for] loop that threads an accumulator through its body. *)
Fixpoint foldM {A B} (f : B -> A -> M B) (l : list A) (acc : B) : M B :=
  match l with
  | [] => ret acc
  | a :: l' => acc' <- f acc a ;; foldM f l' acc'
  end.

(** [session.get(API_BASE_URL, params=params)]. *)
Definition http_get (req : request) : M response :=
  fun s =>
    let (r, w) := session_get req (net s) in
    (r, mkState (SETTLEMENT_CODE_CACHE s) w (requests s ++ [req]) (stdout s)).

Definition cache_store (name : pystr) (code : json) : M unit :=
  fun s =>
    (Ok tt, mkState (<[name := code]> (SETTLEMENT_CODE_CACHE s)) (net s)
              (requests s) (stdout s)).

Definition print (doc : FeatureCollection) : M unit :=
  fun s =>
    (Ok tt, mkState (SETTLEMENT_CODE_CACHE s) (net s) (requests s)
              (stdout s ++ [doc])).

(** *** [get_settlement_code] *)

(** [f"^{settlement_name}(?: .+)?$"] *)
Definition settlement_pattern (settlement_name : pystr) : pystr :=
  py "^" ++ settlement_name ++ py "(?: .+)?$".

(** [re.compile(pattern)], as far as [.match] is concerned. *)
Definition re_compile_matcher (pattern : pystr) : result (pystr -> bool) :=
  match re_compile pattern with
  | Parsed r => Ok (re_match r)
  | Invalid => Raise re_error
  | Unsupported => re_other pattern
  end.

(** The condition of the generator expression for one candidate: the
    pattern is compiled first, then the display name is fetched, then
    matched; [match] refuses what is not a string. *)
Definition candidate_matches (settlement_name : pystr) (candidate : json)
  : result bool :=
  (matcher <~ re_compile_matcher (settlement_pattern settlement_name) ;;
   display <~ getitem candidate (py "telepulesNeve") ;;
   match display with
   | JStr d => Ok (matcher d)
   | _ => Raise TypeError
   end)%result.

(** [next(match["telepulesKod"] for match in candidates if ...)] *)
Fixpoint next_code (settlement_name : pystr) (candidates : list json)
  : result json :=
  match candidates with
  | [] => Raise StopIteration
  | candidate :: rest =>
      (hit <~ candidate_matches settlement_name candidate ;;
       if hit : bool then getitem candidate (py "telepulesKod")
       else next_code settlement_name rest)%result
  end.

(** The body of the [try] block, up to the cache update. *)
Definition select_code (settlement_name : pystr) (resp : response)
  : result json :=
  (data <~ json_body resp ;;
   candidates <~ iter_json data ;;
   next_code settlement_name candidates)%result.

Definition search_params (settlement_name : pystr) : gmap pystr json :=
  <[keywords_param := JStr settlement_name]> API_SEARCH_PARAMS.

Definition get_settlement_code (settlement_name : pystr) : M json :=
  fun s =>
    match SETTLEMENT_CODE_CACHE s !! settlement_name with
    | Some code => (Ok code, s)
    | None =>
        let params := search_params settlement_name in
        (resp <- http_get (mkRequest API_BASE_URL params) ;;
         match select_code settlement_name resp with
         | Ok settlement_code =>
             _ <- cache_store settlement_name settlement_code ;;
             ret settlement_code
         | Raise e => raise (Exception settlement_name e params)
         end) s
    end.

(** *** [polling_stations]

    A generator is modelled by its [for] loop: it takes the body of the
    loop that consumes it and the accumulator of that body, so the effects
    of producer and consumer interleave as they do in the script. *)

Definition int_of_cell (c : cell) : result Z :=
  match c with
  | CNone => Raise TypeError
  | CInt z => Ok z
  | CFloat f => int_of_float f
  | CStr s => int_of_str s
  end.

(** [{field.name: row[field.value] for field in [*WorksheetColumns]}] *)
Definition row_properties (row : list cell) : result (list (pystr * cell)) :=
  rmapM (fun field =>
           (v <~ index row (column_value field) ;;
            Ok (column_name field, v))%result)
        all_columns.

Definition station_api_params (station_no : pystr) (settlement_code : json)
  (county_code : pystr) : gmap pystr json :=
  <[COUNTY_CODE_param := JStr county_code]>
    (<[SETTLEMENT_CODE_param := settlement_code]>
       (<[STATION_NO_param := JStr station_no]> ∅)).

(** [get_settlement_code] is declared on [str]; a settlement cell that is
    not text is outside its domain and is modelled as a [TypeError]. *)
Definition settlement_code_of_cell (c : cell) : M json :=
  match c with
  | CStr settlement_name => get_settlement_code settlement_name
  | _ => raise TypeError
  end.

(** What a turn of [for row in rows] does with a row it does not skip. *)
Definition emit_record {B} (county_index : nat)
  (body : B -> PollingStation -> M B) (acc : B) (row : list cell) : M B :=
  station_cell <- lift (index row (column_value STATION_NO)) ;;
  station_int <- lift (int_of_cell station_cell) ;;
  let station_no := str_int station_int in
  let county_code := format_02 (county_index + 1) in
  settlement_cell <- lift (index row (column_value SETTLEMENT)) ;;
  settlement_code <- settlement_code_of_cell settlement_cell ;;
  props <- lift (row_properties row) ;;
  body acc
    (mkPollingStation
       (station_api_params station_no settlement_code county_code) props).

(** One turn of [for row in rows]. *)
Definition polling_stations_row {B} (county_index : nat)
  (body : B -> PollingStation -> M B) (acc : B) (row : list cell) : M B :=
  first <- lift (index row 0) ;;
  match first with
  | CNone => ret acc
  | _ => emit_record county_index body acc row
  end.

(** One turn of [for county_index, worksheet in enumerate(...)];
    [_, *rows = worksheet.values] needs at least the header row. *)
Definition polling_stations_sheet {B} (body : B -> PollingStation -> M B)
  (acc : B) (indexed : nat * worksheet) : M B :=
  match values indexed.2 with
  | [] => raise ValueError
  | _ :: rows => foldM (polling_stations_row indexed.1 body) rows acc
  end.

Definition enumerate {A} (l : list A) : list (nat * A) :=
  zip (seq 0 (length l)) l.

Definition polling_stations {B} (workbook : list worksheet)
  (body : B -> PollingStation -> M B) (acc : B) : M B :=
  foldM (polling_stations_sheet body) (enumerate workbook) acc.

(** *** [fetch_polling_station_geometries] *)

(** [(point["lng"], point["lat"])] *)
Definition point_pair (point : json) : result (json * json) :=
  (lng <~ getitem point (py "lng") ;;
   lat <~ getitem point (py "lat") ;;
   Ok (lng, lat))%result.

(** [json.loads(x)]: only text can be decoded. *)
Definition json_loads_value (x : json) : result json :=
  match x with
  | JStr s => json_loads s
  | _ => Raise TypeError
  end.

(** The body of the [try] block. *)
Definition fetch_geometry (resp : response) : result json :=
  (data <~ json_body resp ;;
   polygon_field <~ getitem data (py "polygon") ;;
   paths_text <~ getitem polygon_field (py "paths") ;;
   paths <~ json_loads_value paths_text ;;
   points <~ iter_json paths ;;
   pairs <~ rmapM point_pair points ;;
   shape <~ Polygon pairs ;;
   mapping shape)%result.

(** [try: ... except Exception: geometry = None] *)
Definition try_geometry (resp : response) : option json :=
  match fetch_geometry resp with
  | Ok g => Some g
  | Raise _ => None
  end.

Definition map_data_params (polling_station : PollingStation)
  : gmap pystr json :=
  merge_dicts API_GET_MAP_DATA_PARAMS (api_params polling_station).

(** One turn of [async for polling_station in polling_stations()]. *)
Definition fetch_step {B} (body : B -> Feature -> M B) (acc : B)
  (polling_station : PollingStation) : M B :=
  resp <- http_get
            (mkRequest API_BASE_URL (map_data_params polling_station)) ;;
  body acc (mkFeature (try_geometry resp) (properties polling_station)).

Definition fetch_polling_station_geometries {B} (workbook : list worksheet)
  (body : B -> Feature -> M B) (acc : B) : M B :=
  polling_stations workbook (fetch_step body) acc.

(** *** [run] *)

(** What a list comprehension does with each element it is given. *)
Definition collect {A} (acc : list A) (x : A) : M (list A) :=
  ret (acc ++ [x]).

Definition run (workbook : list worksheet) : M unit :=
  fs <- fetch_polling_station_geometries workbook collect [] ;;
  print (mkFeatureCollection fs).

End Program.

Declare Scope monad_scope.
Delimit Scope monad_scope with M.
Notation "x <- m ;; k" := (bind m (fun x => k))
  (at level 100, m at next level, right associativity) : monad_scope.

(** ** Vocabulary of the properties *)

Section Vocabulary.
Context {platform : Platform}.

(** The state once [req] has been sent and the service has moved to [w]. *)
Definition after_request (s : state) (req : request) (w : world) : state :=
  mkState (SETTLEMENT_CODE_CACHE s) w (requests s ++ [req]) (stdout s).

Definition search_request (name : pystr) : request :=
  mkRequest API_BASE_URL (search_params name).

(** What the script can do to the state between two lookups. *)
Inductive run_step : state -> state -> Prop :=
  | step_resolve name s : run_step s (get_settlement_code name s).2
  | step_request req s : run_step s (http_get req s).2
  | step_print doc s : run_step s (print doc s).2.

Definition line_feed : N := 10%N.
Definition space : N := 32%N.

(** The rule in the words of the specification: the display name is the
    settlement name, or the settlement name, a space and a suffix that is
    not empty. *)
Definition anchored (name display : pystr) : Prop :=
  display = name \/
  exists suffix, suffix <> [] /\ display = name ++ space :: suffix.

Fixpoint strip (name s : pystr) : option pystr :=
  match name, s with
  | [], _ => Some s
  | c :: name', c' :: s' => if (c =? c')%N then strip name' s' else None
  | _ :: _, [] => None
  end.

(** The same rule as a test. *)
Definition anchoredb (name display : pystr) : bool :=
  match strip name display with
  | Some [] => true
  | Some (c :: _ :: _) => (c =? space)%N
  | _ => false
  end.

(** [(?: .+)] *)
Definition suffix_group : regex :=
  RGroup (seq_of [RLit space; RPlus RAny]).

Definition at_end : cont :=
  fun at_start s => re_run REol at_start s (fun _ _ => true).

(** A candidate as the search service describes it. *)
Definition candidate (display : pystr) (code : json) : json :=
  JObj [(py "telepulesNeve", JStr display); (py "telepulesKod", code)].

Definition candidates (cands : list (pystr * json)) : json :=
  JArr (map (fun dc => candidate dc.1 dc.2) cands).

Definition ordinary (name : pystr) : Prop :=
  Forall (fun c => is_special c = false) name.


(** *** The rows that produce a record *)

(** [row[0] is None] *)
Definition skipped (row : list cell) : bool :=
  match row with
  | CNone :: _ => true
  | _ => false
  end.

Definition retained_rows (rows : list (list cell)) : list (list cell) :=
  List.filter (fun row => negb (skipped row)) rows.

(** The rows of a sheet after its header. *)
Definition data_rows (sheet : worksheet) : list (list cell) :=
  tail (values sheet).

(** The retained rows of a workbook with the index of their sheet, in
    sheet order, then in row order. *)
Definition retained_of_sheet (indexed : nat * worksheet)
  : list (nat * list cell) :=
  map (pair indexed.1) (retained_rows (data_rows indexed.2)).

Definition retained (workbook : list worksheet) : list (nat * list cell) :=
  concat (map retained_of_sheet (enumerate workbook)).

(** [int(row[WorksheetColumns.STATION_NO])] *)
Definition station_int (row : list cell) : result Z :=
  rbind (index row (column_value STATION_NO)) int_of_cell.

(** The record [ps] is the one the adapter builds from [row] on the sheet
    of index [county_index]. *)
Definition produced_from (county_index : nat) (row : list cell)
  (ps : PollingStation) : Prop :=
  exists (z : Z) (settlement_code : json),
    station_int row = Ok z /\
    api_params ps =
      station_api_params (str_int z) settlement_code
        (format_02 (county_index + 1)) /\
    row_properties row = Ok (properties ps).


(** *** Reading a decimal numeral *)




(** *** Completed computations *)

Definition is_ok {A} (r : result A) : bool :=
  match r with
  | Ok _ => true
  | Raise _ => false
  end.

(** The value of a result that is known to be [Ok]. *)
Definition unwrap {A} (default : A) (r : result A) : A :=
  match r with
  | Ok a => a
  | Raise _ => default
  end.


(** *** Requests of the fetcher *)

Definition map_data_request (polling_station : PollingStation) : request :=
  mkRequest API_BASE_URL (map_data_params polling_station).

(** The script does not print before [run] prints the collection. *)
Definition same_stdout (s s' : state) : Prop := stdout s' = stdout s.


(** The exception of a result that is known to be [Raise]. *)
Definition error_of {A} (r : result A) : exn :=
  match r with
  | Ok _ => StopIteration
  | Raise e => e
  end.

(** The request for the map data of station [station_no] of the settlement
    [settlement_code] in the county [county_code]. *)
Definition station_request (station_no : pystr) (settlement_code : json)
  (county_code : pystr) : request :=
  mkRequest API_BASE_URL
    (merge_dicts API_GET_MAP_DATA_PARAMS
       (station_api_params station_no settlement_code county_code)).


(** *** The lookup key in the words of the specification *)





End Vocabulary.

(** ** A scripted platform

    A concrete [Platform] on which the model runs: the remote service
    answers with the next entry of a script (and refuses the connection when
    the script is exhausted), [json.loads] decodes the texts of a table, and
    a polygon is the ring of its vertices, which needs three numeric points
    and is closed by repeating the first vertex unless the last one equals
    it. *)

Definition scripted_get (req : request) (script : list (result response))
  : result response * list (result response) :=
  match script with
  | r :: rest => (r, rest)
  | [] => (Raise (ClientError (py "connection refused")), [])
  end.

Definition table_loads (table : list (pystr * json)) (text : pystr)
  : result json :=
  match assoc text table with
  | Some v => Ok v
  | None => Raise JSONDecodeError
  end.

Definition is_number (v : json) : bool :=
  match v with
  | JInt _ | JFloat _ => true
  | _ => false
  end.

Definition same_number (a b : json) : bool :=
  match a, b with
  | JInt x, JInt y => (x =? y)%Z
  | JFloat x, JFloat y => SFeqb x y
  | _, _ => false
  end.

Definition same_point (p q : json * json) : bool :=
  same_number p.1 q.1 && same_number p.2 q.2.

Definition ring (points : list (json * json)) : result (list (json * json)) :=
  if negb (forallb (fun p => is_number p.1 && is_number p.2) points)
  then Raise TypeError
  else
    match points, last points with
    | [], _ => Ok []
    | first :: _, Some final =>
        if length points <? 3 then Raise ValueError
        else if same_point first final then Ok points
        else Ok (points ++ [first])
    | _ :: _, None => Raise ValueError
    end.

Definition ring_mapping (shell : list (json * json)) : result json :=
  Ok (JObj [ (py "type", JStr (py "Polygon"));
             (py "coordinates",
              JArr [JArr (map (fun p => JArr [p.1; p.2]) shell)]) ]).

Definition scripted (table : list (pystr * json)) : Platform :=
  {| world := list (result response);
     session_get := scripted_get;
     json_loads := table_loads table;
     int_of_str := fun _ => Raise ValueError;
     polygon := list (json * json);
     Polygon := ring;
     mapping := ring_mapping;
     re_other := fun _ => Raise re_error |}.

(** The state in which the script starts, facing a service that will give
    the answers of [script]. *)
Definition initial (table : list (pystr * json))
  (script : list (result response)) : @state (scripted table) :=
  @mkState (scripted table) ∅ script [] [].

Definition answer (body : json) : result response :=
  Ok (mkResponse 200 (Ok body)).

Definition code_of (text : string) : json := JStr (py text).

(** *** Rows of the examples *)

(** A row with its first cell, the county, the settlement, the station
    number and the same value in each of the sixteen counters. *)
Definition data_row (first : cell) (county settlement : string)
  (station_no counter : Z) : list cell :=
  first :: CStr (py county) :: CStr (py settlement) :: CInt station_no
    :: replicate 16 (CInt counter).

Definition header_row : list cell := replicate 20 (CStr (py "header")).

(** *** The data of the end-to-end example *)

(** A binary64 number [m * 2^e]. *)
Definition double (m : positive) (e : Z) : spec_float :=
  S754_finite false m e.

(** The doubles nearest to 46.0, 46.1, 20.0, 20.1 and 20.2. *)
Definition f46_0 : spec_float := double 6473924464345088 (-47).
Definition f46_1 : spec_float := double 6487998213180621 (-47).
Definition f20_0 : spec_float := double 5629499534213120 (-48).
Definition f20_1 : spec_float := double 5657647031884186 (-48).
Definition f20_2 : spec_float := double 5685794529555251 (-48).

(** A point as the map service encodes it. *)
Definition point (lat lng : spec_float) : json :=
  JObj [(py "lat", JFloat lat); (py "lng", JFloat lng)].

Definition example_points : json :=
  JArr [point f46_0 f20_0; point f46_1 f20_1; point f46_0 f20_2].

(** The same vertices, longitude first. *)
Definition example_coordinates : list (json * json) :=
  [ (JFloat f20_0, JFloat f46_0); (JFloat f20_1, JFloat f46_1);
    (JFloat f20_2, JFloat f46_0) ].

(** The body of a map-data response whose polygon payload is [text]. *)
Definition map_data (text : pystr) : json :=
  JObj [(py "polygon", JObj [(py "paths", JStr text)])].

Definition example_row (first : cell) : list cell :=
  data_row first "Pest" "Szeged" 1 5.

Definition example_workbook (first : cell) : list worksheet :=
  [Worksheet (py "Pest") [header_row; example_row first]].

(** The text of the polygon payload of the example. *)
Definition quoted (s : string) : pystr := 34%N :: py s ++ [34%N].

Definition point_text (lat lng : string) : pystr :=
  py "{" ++ quoted "lat" ++ py ": " ++ py lat ++ py ", "
    ++ quoted "lng" ++ py ": " ++ py lng ++ py "}".

Definition example_text : pystr :=
  py "[" ++ point_text "46.0" "20.0" ++ py ", "
    ++ point_text "46.1" "20.1" ++ py ", "
    ++ point_text "46.0" "20.2" ++ py "]".

(** The mapping of the closed ring through the vertices of the example. *)
Definition example_geometry : json :=
  JObj [ (py "type", JStr (py "Polygon"));
         (py "coordinates",
          JArr [JArr [ JArr [JFloat f20_0; JFloat f46_0];
                       JArr [JFloat f20_1; JFloat f46_1];
                       JArr [JFloat f20_2; JFloat f46_0];
                       JArr [JFloat f20_0; JFloat f46_0] ]]) ].

(** ** Vocabulary of the further properties *)

Section Further.
Context {platform : Platform}.

(** The requests a lookup of [name] sends from the state [s]. *)
Definition lookup_requests (name : pystr) (s : state) : list request :=
  match SETTLEMENT_CODE_CACHE s !! name with
  | Some _ => []
  | None => [search_request name]
  end.

(** A candidate that the generator expression passes over. *)
Definition passed_over (name : pystr) (c : json) : Prop :=
  candidate_matches name c = Ok false.


(** [match["telepulesNeve"]] as [Pattern.match] needs it: a string. *)
Definition display_of (c : json) : result pystr :=
  rbind (getitem c (py "telepulesNeve"))
    (fun d => match d with JStr t => Ok t | _ => Raise TypeError end).

(** The candidate [c] makes the generator expression raise [e] for an
    ordinary name: it has no display name that is a string, or its display
    name is accepted and it has no code. *)
Definition candidate_fails (name : pystr) (c : json) (e : exn) : Prop :=
  display_of c = Raise e \/
  exists d,
    display_of c = Ok d /\ line_feed ∉ d /\ anchored name d /\
    getitem c (py "telepulesKod") = Raise e.

(** What the pattern of an ordinary name accepts, line feeds included:
    [$] also matches before a final line feed, and [.] matches no line
    feed. *)
Definition accepted (name display : pystr) : Prop :=
  display = name \/ display = name ++ [line_feed] \/
  exists suffix,
    suffix <> [] /\ line_feed ∉ suffix /\
    (display = name ++ space :: suffix \/
     display = name ++ space :: suffix ++ [line_feed]).

(** The characters [*], [+] and [?]. *)
Definition is_repetition (c : N) : bool :=
  match repeat_of_char c with
  | Some _ => true
  | None => false
  end.


(** The number of requests sent so far that did not add a cache entry. *)
Definition uncached_requests (s : state) : Z :=
  Z.of_nat (length (requests s)) - Z.of_nat (size (SETTLEMENT_CODE_CACHE s)).

(** The later state has sent the requests of the earlier one and then
    others, all of them to [API_BASE_URL]. *)
Definition sent_to_base_url (s s' : state) : Prop :=
  exists reqs,
    requests s' = requests s ++ reqs /\
    Forall (fun req => url req = API_BASE_URL) reqs.

(** [data["polygon"]["paths"]] when it is there and is a string. *)
Definition paths_text (data : json) : option pystr :=
  match getitem data (py "polygon") with
  | Ok polygon_field =>
      match getitem polygon_field (py "paths") with
      | Ok (JStr text) => Some text
      | _ => None
      end
  | Raise _ => None
  end.

(** The three parameters that address a station. *)
Definition station_keys : list pystr :=
  [STATION_NO_param; SETTLEMENT_CODE_param; COUNTY_CODE_param].


(** The later state holds every cache entry of the earlier one. *)
Definition cache_kept (s s' : state) : Prop :=
  forall k v,
    SETTLEMENT_CODE_CACHE s !! k = Some v ->
    SETTLEMENT_CODE_CACHE s' !! k = Some v.

(** The record [ps] of the row [row] carries the code that the cache of
    [s] holds for the settlement of the row. *)
Definition carries_cached_code (s : state) (row : list cell)
  (ps : PollingStation) : Prop :=
  exists name code,
    row !! column_value SETTLEMENT = Some (CStr name) /\
    SETTLEMENT_CODE_CACHE s !! name = Some code /\
    api_params ps !! SETTLEMENT_CODE_param = Some code.

End Further.

(** * Properties *)

(** ** The settlement code resolver *)

Section Resolver.
Context {platform : Platform}.
Implicit Types (s : state) (name : pystr) (code : json).



Lemma http_get_eq req s :
  http_get req s =
    ((session_get req (net s)).1,
     after_request s req (session_get req (net s)).2).
Proof. unfold http_get. by destruct (session_get req (net s)). Qed.

Lemma get_settlement_code_hit name code s :
  SETTLEMENT_CODE_CACHE s !! name = Some code ->
  get_settlement_code name s = (Ok code, s).
Proof. intros Hhit. unfold get_settlement_code. by rewrite Hhit. Qed.

(** The three ways a lookup that misses the cache can end. *)
Lemma get_settlement_code_miss name s :
  SETTLEMENT_CODE_CACHE s !! name = None ->
  get_settlement_code name s =
    match session_get (search_request name) (net s) with
    | (Raise e, w) => (Raise e, after_request s (search_request name) w)
    | (Ok resp, w) =>
        let s1 := after_request s (search_request name) w in
        match select_code name resp with
        | Ok code =>
            (Ok code,
             mkState (<[name := code]> (SETTLEMENT_CODE_CACHE s1)) (net s1)
               (requests s1) (stdout s1))
        | Raise e => (Raise (Exception name e (search_params name)), s1)
        end
    end.
Proof.
  intros Hmiss. unfold get_settlement_code. rewrite Hmiss.
  unfold bind. rewrite http_get_eq. fold (search_request name).
  destruct (session_get (search_request name) (net s)) as [[resp|e] w];
    simpl; [|done].
  by destruct (select_code name resp).
Qed.

Lemma get_settlement_code_stores name code s s' :
  get_settlement_code name s = (Ok code, s') ->
  SETTLEMENT_CODE_CACHE s' !! name = Some code.
Proof.
  destruct (SETTLEMENT_CODE_CACHE s !! name) as [c|] eqn:Hc.
  - rewrite (get_settlement_code_hit _ _ _ Hc). by intros [= <- <-].
  - rewrite (get_settlement_code_miss _ _ Hc).
    destruct (session_get _ _) as [[resp|e] w]; [|done].
    simpl. destruct (select_code name resp); [|done].
    intros [= <- <-]. simpl. apply lookup_insert_eq.
Qed.

(** A failed lookup leaves the cache as it was. *)
Lemma get_settlement_code_failure_cache name e s s' :
  get_settlement_code name s = (Raise e, s') ->
  SETTLEMENT_CODE_CACHE s' = SETTLEMENT_CODE_CACHE s.
Proof.
  destruct (SETTLEMENT_CODE_CACHE s !! name) as [c|] eqn:Hc.
  - by rewrite (get_settlement_code_hit _ _ _ Hc).
  - rewrite (get_settlement_code_miss _ _ Hc).
    destruct (session_get _ _) as [[resp|e'] w].
    + simpl. destruct (select_code name resp); [done|]. by intros [= <- <-].
    + by intros [= <- <-].
Qed.

(** Entries are never overwritten or removed. *)
Lemma get_settlement_code_keeps name s k v :
  SETTLEMENT_CODE_CACHE s !! k = Some v ->
  SETTLEMENT_CODE_CACHE (get_settlement_code name s).2 !! k = Some v.
Proof.
  intros Hk.
  destruct (SETTLEMENT_CODE_CACHE s !! name) as [c|] eqn:Hc.
  - by rewrite (get_settlement_code_hit _ _ _ Hc).
  - rewrite (get_settlement_code_miss _ _ Hc).
    destruct (session_get _ _) as [[resp|e'] w]; [|done].
    simpl. destruct (select_code name resp); [|done].
    simpl. rewrite lookup_insert_ne; [done|]. congruence.
Qed.


Lemma run_step_keeps s s' k v :
  run_step s s' ->
  SETTLEMENT_CODE_CACHE s !! k = Some v ->
  SETTLEMENT_CODE_CACHE s' !! k = Some v.
Proof.
  destruct 1 as [name s|req s|doc s]; intros Hk.
  - by apply get_settlement_code_keeps.
  - by rewrite http_get_eq.
  - done.
Qed.

Lemma run_steps_keep s s' k v :
  rtc run_step s s' ->
  SETTLEMENT_CODE_CACHE s !! k = Some v ->
  SETTLEMENT_CODE_CACHE s' !! k = Some v.
Proof. induction 1; eauto using run_step_keeps. Qed.

End Resolver.

(** ** The pattern of a settlement name without special characters *)

Section Matching.




Lemma strip_Some name s rest : strip name s = Some rest <-> s = name ++ rest.
Proof.
  revert s. induction name as [|c name IH]; intros s; simpl.
  - split; [by intros [= ->]|by intros ->].
  - destruct s as [|c' s]; [done|].
    destruct (N.eqb_spec c c') as [->|Hne].
    + rewrite IH. split; [by intros ->|by intros [= ->]].
    + split; [done|]. intros [= ? ?]. done.
Qed.

Lemma special_tests c :
  is_special c = false ->
  repeat_of_char c = None /\
  (c =? 40)%N = false /\ (c =? 41)%N = false /\ (c =? 124)%N = false /\
  (c =? 46)%N = false /\ (c =? 94)%N = false /\ (c =? 36)%N = false /\
  (c =? 92)%N = false /\ (c =? 91)%N = false /\ (c =? 123)%N = false.
Proof.
  unfold is_special. rewrite bool_decide_eq_false.
  intros Hc. unfold repeat_of_char.
  assert (forall n, n ∈ special -> (c =? n)%N = false) as Hne.
  { intros n Hn. apply N.eqb_neq. intros ->. done. }
  rewrite !Hne; [done|..]; vm_compute; set_solver.
Qed.

(** An ordinary character is parsed as itself. *)
Lemma parse_ordinary c p stack alts items :
  is_special c = false ->
  parse (c :: p) stack alts items = parse p stack alts (RLit c :: items).
Proof.
  intros (Hr & H40 & H41 & H124 & H46 & H94 & H36 & H92 & H91 & H123)
    %special_tests.
  cbn [parse]. rewrite Hr, H40, H41, H124, H46, H94, H36, H92, H91, H123.
  done.
Qed.

Lemma parse_ordinary_run name p stack alts items :
  Forall (fun c => is_special c = false) name ->
  parse (name ++ p) stack alts items =
    parse p stack alts (rev (map RLit name) ++ items).
Proof.
  intros Hname. revert items.
  induction Hname as [|c name Hc _ IH]; intros items; [done|].
  cbn [app]. rewrite parse_ordinary by done. rewrite IH.
  cbn [map rev]. by rewrite <- app_assoc.
Qed.


Lemma parse_suffix_part items :
  parse (py "(?: .+)?$") [] [] items =
    Parsed (branch_of (REol :: ROpt suffix_group :: items)).
Proof. vm_compute. reflexivity. Qed.

Lemma settlement_pattern_ordinary name :
  Forall (fun c => is_special c = false) name ->
  re_compile (settlement_pattern name) =
    Parsed (seq_of (RBol :: map RLit name ++ [ROpt suffix_group; REol])).
Proof.
  intros Hname. unfold re_compile, settlement_pattern.
  change (py "^") with [94%N]. cbn [app].
  replace (parse (94%N :: name ++ py "(?: .+)?$") [] [] [])
    with (parse (name ++ py "(?: .+)?$") [] [] [RBol]) by done.
  rewrite parse_ordinary_run, parse_suffix_part by done.
  unfold branch_of. f_equal. cbn [rev].
  rewrite !rev_app_distr, rev_involutive. cbn [rev app].
  by rewrite <- !app_assoc.
Qed.

(** A run of literals consumes exactly that prefix of the subject. *)
Lemma re_run_literals name items at_start s k :
  re_run (seq_of (map RLit name ++ items)) at_start s k =
    match strip name s with
    | Some rest =>
        re_run (seq_of items)
          (match name with [] => at_start | _ => false end) rest k
    | None => false
    end.
Proof.
  revert at_start s. induction name as [|c name IH]; intros at_start s.
  - done.
  - cbn [map app seq_of foldr re_run strip].
    destruct s as [|c' s]; [done|].
    destruct (c =? c')%N; [|done]. cbn [andb].
    fold (seq_of (map RLit name ++ items)). rewrite IH.
    destruct (strip name s); [|done]. by destruct name.
Qed.


Lemma at_end_no_line_feed at_start s :
  line_feed ∉ s -> at_end at_start s = bool_decide (s = []).
Proof.
  intros Hs. destruct s as [|c [|c' s]]; [done| |done].
  cbn. rewrite andb_true_r. apply N.eqb_neq. intros ->. apply Hs. by left.
Qed.

(** [.*] followed by the end of the subject, on text without a line feed. *)
Lemma star_any_to_end n s at_start :
  line_feed ∉ s -> length s <= n ->
  star_loop (re_run RAny) n at_start s at_end = true.
Proof.
  revert s at_start. induction n as [|n IH]; intros s at_start Hs Hn.
  - destruct s; [done|simpl in Hn; lia].
  - destruct s as [|c s]; [done|].
    cbn [star_loop]. apply orb_true_iff. right.
    cbn [re_run].
    assert ((c =? 10)%N = false) as ->
      by (apply N.eqb_neq; intros ->; apply Hs; by left).
    cbn [negb andb].
    assert ((length s <? length (c :: s)) = true) as ->
      by (apply Nat.ltb_lt; simpl; lia).
    cbn [andb]. apply IH; [|simpl in Hn; lia].
    intros Hin. apply Hs. by right.
Qed.

Lemma re_run_plus_any at_start s k :
  re_run (RPlus RAny) at_start s k =
    match s with
    | c :: s' =>
        negb (c =? 10)%N && star_loop (re_run RAny) (length s') false s' k
    | [] => false
    end.
Proof. by destruct s. Qed.

(** [(?: .+)?$] *)
Lemma re_run_suffix_part at_start s :
  re_run (seq_of [ROpt suffix_group; REol]) at_start s (fun _ _ => true) =
    match s with
    | c :: s' => (space =? c)%N && re_run (RPlus RAny) false s' at_end
    | [] => false
    end || at_end at_start s.
Proof. by destruct s. Qed.

Lemma suffix_part_no_line_feed at_start s :
  line_feed ∉ s ->
  re_run (seq_of [ROpt suffix_group; REol]) at_start s (fun _ _ => true) =
    match s with
    | [] => true
    | [_] => false
    | c :: _ :: _ => (space =? c)%N
    end.
Proof.
  intros Hs. rewrite re_run_suffix_part, at_end_no_line_feed by done.
  destruct s as [|c [|c' s]]; [done|..].
  - by rewrite re_run_plus_any, andb_false_r.
  - rewrite re_run_plus_any, star_any_to_end; [|set_solver|done].
    assert ((c' =? 10)%N = false) as ->
      by (apply N.eqb_neq; intros ->; set_solver).
    cbn [negb andb]. rewrite bool_decide_eq_false_2 by done.
    by rewrite andb_true_r, orb_false_r.
Qed.

(** What the compiled pattern of an ordinary name accepts. *)
Lemma re_match_ordinary name display :
  line_feed ∉ display ->
  re_match (seq_of (RBol :: map RLit name ++ [ROpt suffix_group; REol]))
    display = true <-> anchored name display.
Proof.
  intros Hd. unfold re_match, anchored.
  cbn [seq_of foldr re_run andb].
  fold (seq_of (map RLit name ++ [ROpt suffix_group; REol])).
  rewrite re_run_literals.
  destruct (strip name display) as [rest|] eqn:Hstrip.
  - apply strip_Some in Hstrip as ->.
    rewrite suffix_part_no_line_feed by set_solver.
    destruct rest as [|c [|c' rest]].
    + split; [|done]. intros _. left. by rewrite app_nil_r.
    + split; [done|]. intros [Heq|(suffix & Hne & Heq)].
      * apply (f_equal length) in Heq. rewrite length_app in Heq.
        simpl in Heq. lia.
      * apply app_inv_head in Heq. by injection Heq as _ <-.
    + destruct (N.eqb_spec space c) as [<-|Hc].
      * split; [|done]. intros _. right. by exists (c' :: rest).
      * split; [done|]. intros [Heq|(suffix & Hne & Heq)].
        -- apply (f_equal length) in Heq. rewrite length_app in Heq.
           simpl in Heq. lia.
        -- apply app_inv_head in Heq. by injection Heq as ->.
  - split; [done|]. intros [->|(suffix & _ & ->)].
    + assert (strip name name = Some []) as Habs
        by (apply strip_Some; by rewrite app_nil_r).
      congruence.
    + assert (strip name (name ++ space :: suffix) = Some (space :: suffix))
        as Habs by (by apply strip_Some).
      congruence.
Qed.

End Matching.

(** ** Which candidate the resolver selects *)

Section Selection.
Context {platform : Platform}.




Lemma candidate_matches_ordinary name display code :
  ordinary name -> line_feed ∉ display ->
  exists hit,
    candidate_matches name (candidate display code) = Ok hit /\
    (hit = true <-> anchored name display).
Proof.
  intros Hname Hd. unfold candidate_matches, re_compile_matcher.
  rewrite settlement_pattern_ordinary by done.
  eexists. split; [reflexivity|]. by apply re_match_ordinary.
Qed.

Lemma next_code_ordinary name cands :
  ordinary name ->
  Forall (fun dc => line_feed ∉ dc.1) cands ->
  match next_code name (map (fun dc => candidate dc.1 dc.2) cands) with
  | Ok code =>
      exists pre display post,
        cands = pre ++ (display, code) :: post /\
        Forall (fun dc => ~ anchored name dc.1) pre /\
        anchored name display
  | Raise e =>
      e = StopIteration /\ Forall (fun dc => ~ anchored name dc.1) cands
  end.
Proof.
  intros Hname. induction 1 as [|[d c] cands Hd _ IH]; [done|].
  cbn [map next_code fst snd].
  destruct (candidate_matches_ordinary name d c Hname Hd)
    as (hit & -> & Hhit).
  cbn [rbind]. destruct hit.
  - cbn. exists [], d, cands. split_and!; [done|done|by apply Hhit].
  - assert (~ anchored name d) as Hno by (rewrite <- Hhit; done).
    destruct (next_code name _) as [code|e].
    + destruct IH as (pre & d' & post & -> & Hpre & Hd').
      exists ((d, c) :: pre), d', post. split_and!; [done| |done].
      by constructor.
    + destruct IH as [-> Hall]. split; [done|]. by constructor.
Qed.

(** The first candidate with an anchored display name is unique as such. *)
Lemma first_anchored_unique name (pre pre' post post' : list (pystr * json))
    dc dc' :
  pre ++ dc :: post = pre' ++ dc' :: post' ->
  Forall (fun x => ~ anchored name x.1) pre -> anchored name dc.1 ->
  Forall (fun x => ~ anchored name x.1) pre' -> anchored name dc'.1 ->
  dc = dc'.
Proof.
  revert pre'. induction pre as [|x pre IH]; intros [|x' pre'] Heq Hpre Hdc
    Hpre' Hdc'; simplify_eq/=.
  - done.
  - by apply Forall_cons in Hpre' as [? _].
  - by apply Forall_cons in Hpre as [? _].
  - apply Forall_cons in Hpre as [_ ?]. apply Forall_cons in Hpre' as [_ ?].
    eauto.
Qed.

End Selection.

(** ** Claims about the resolver *)

Lemma anchoredb_spec name display :
  anchoredb name display = true <-> anchored name display.
Proof.
  unfold anchored, anchoredb.
  destruct (strip name display) as [rest|] eqn:Hs.
  - apply strip_Some in Hs as ->. destruct rest as [|c [|c' rest]].
    + split; [|done]. intros _. left. by rewrite app_nil_r.
    + split; [done|]. intros [Heq|(suffix & Hne & Heq)].
      * apply (f_equal length) in Heq. rewrite length_app in Heq.
        simpl in Heq. lia.
      * apply app_inv_head in Heq. by injection Heq as _ <-.
    + rewrite N.eqb_eq. split.
      * intros ->. right. by exists (c' :: rest).
      * intros [Heq|(suffix & Hne & Heq)].
        -- apply (f_equal length) in Heq. rewrite length_app in Heq.
           simpl in Heq. lia.
        -- apply app_inv_head in Heq. by injection Heq as ->.
  - split; [done|]. intros [->|(suffix & _ & ->)].
    + assert (strip name name = Some []) as Habs
        by (apply strip_Some; by rewrite app_nil_r).
      congruence.
    + assert (strip name (name ++ space :: suffix) = Some (space :: suffix))
        as Habs by (by apply strip_Some).
      congruence.
Qed.

#[global] Instance anchored_dec name display : Decision (anchored name display).
Proof.
  refine (cast_if (decide (anchoredb name display = true)));
    [by apply anchoredb_spec|by rewrite <- anchoredb_spec].
Defined.

#[global] Instance ordinary_dec name : Decision (ordinary name).
Proof. unfold ordinary. apply _. Defined.

Lemma completed {A S} (default : A) (x : result A * S) :
  is_ok x.1 = true -> x = (Ok (unwrap default x.1), x.2).
Proof. by destruct x as [[a|e] s]. Qed.

(** Closed goals about concrete inputs are settled by evaluation. *)
Ltac evaluate :=
  first
    [ reflexivity
    | vm_compute; reflexivity
    | apply (bool_decide_unpack _); vm_compute; exact I ].

(** C2 (as amended).  For a settlement name without special characters
    and candidates whose display names hold no line feed, a lookup that
    misses the cache returns the code of the first candidate whose display
    name is the settlement name, or the settlement name, a space and a
    suffix that is not empty; a code that is returned always belongs to
    that candidate; and when no candidate is of that form the lookup fails
    on an exhausted iterator. *)
Theorem first_anchored_candidate_selected
    {platform : Platform} (name : pystr) (cands : list (pystr * json))
    (s : state) (resp : response) (w : world) :
  ordinary name ->
  Forall (fun dc => line_feed ∉ dc.1) cands ->
  SETTLEMENT_CODE_CACHE s !! name = None ->
  session_get (search_request name) (net s) = (Ok resp, w) ->
  json_body resp = Ok (candidates cands) ->
  (forall pre display code post,
      cands = pre ++ (display, code) :: post ->
      Forall (fun dc => ~ anchored name dc.1) pre ->
      anchored name display ->
      (get_settlement_code name s).1 = Ok code) /\
  (forall code,
      (get_settlement_code name s).1 = Ok code ->
      exists pre display post,
        cands = pre ++ (display, code) :: post /\
        Forall (fun dc => ~ anchored name dc.1) pre /\
        anchored name display) /\
  (Forall (fun dc => ~ anchored name dc.1) cands ->
   (get_settlement_code name s).1 =
     Raise (Exception name StopIteration (search_params name))).
Proof.
  intros Hname Hcands Hmiss Hget Hbody.
  rewrite (get_settlement_code_miss _ _ Hmiss), Hget. cbn zeta.
  unfold select_code. rewrite Hbody. cbn [rbind candidates iter_json].
  pose proof (next_code_ordinary name cands Hname Hcands) as Hnext.
  destruct (next_code name _) as [code|e]; cbn [fst].
  - destruct Hnext as (pre & d & post & Heq & Hpre & Hd).
    split_and!.
    + intros pre' d' code' post' Heq' Hpre' Hd'. f_equal.
      rewrite Heq in Heq'.
      by pose proof (first_anchored_unique name _ _ _ _ (d, code) (d', code')
                       Heq' Hpre Hd Hpre' Hd') as [= _ ->].
    + intros code' [= <-]. by exists pre, d, post.
    + intros Hnone. subst cands. apply Forall_app in Hnone as [_ Hnone].
      by apply Forall_cons in Hnone as [? _].
  - destruct Hnext as [-> Hnone]. split_and!; [|done|done].
    intros pre d code post -> _ Hd.
    apply Forall_app in Hnone as [_ Hnone].
    by apply Forall_cons in Hnone as [? _].
Qed.

Lemma first_anchored_candidate_selected_witness :
  (@get_settlement_code (scripted []) (py "Szeged")
     (initial []
        [answer (candidates
           [ (py "Szegedinum", code_of "1"); (py "Nagy Szeged", code_of "2");
             (py "Szeged X", code_of "3"); (py "Szeged", code_of "4") ])])).1
  = Ok (code_of "3").
Proof.
  refine (proj1 (@first_anchored_candidate_selected (scripted [])
            (py "Szeged")
            [ (py "Szegedinum", code_of "1"); (py "Nagy Szeged", code_of "2");
              (py "Szeged X", code_of "3"); (py "Szeged", code_of "4") ]
            (initial [] _) _ _ _ _ _ _ _)
          [ (py "Szegedinum", code_of "1"); (py "Nagy Szeged", code_of "2") ]
          (py "Szeged X") (code_of "3") [ (py "Szeged", code_of "4") ]
          _ _ _).
  - evaluate.
  - evaluate.
  - evaluate.
  - reflexivity.
  - reflexivity.
  - reflexivity.
  - evaluate.
  - evaluate.
Defined.

(** C2 as stated fails.  The name is interpolated as a pattern, so with
    the name [Sz.ged] the candidate [Szeged] is taken although the next
    candidate is the one that equals the name; and a display name that ends
    in a line feed is taken although it is neither the name nor the name, a
    space and a suffix. *)
Lemma selection_is_not_anchored_in_general :
  (@get_settlement_code (scripted []) (py "Sz.ged")
     (initial []
        [answer (candidates
           [ (py "Szeged", code_of "1"); (py "Sz.ged", code_of "2") ])])).1
  = Ok (code_of "1")
  /\ ~ anchored (py "Sz.ged") (py "Szeged")
  /\ anchored (py "Sz.ged") (py "Sz.ged")
  /\ (@get_settlement_code (scripted []) (py "Szeged")
        (initial []
           [answer (candidates
              [ (py "Szeged" ++ [line_feed], code_of "1");
                (py "Szeged", code_of "2") ])])).1
     = Ok (code_of "1")
  /\ ~ anchored (py "Szeged") (py "Szeged" ++ [line_feed]).
Proof. split_and!; evaluate. Qed.

(** C3.  Once a lookup of a name has succeeded, the name is in the cache
    with the code that was returned, and any later lookup of that name in
    the same run (after any number of lookups, requests and prints) returns
    the same code, leaves the state as it is and so sends no request. *)
Theorem cache_hit_idempotent
    {platform : Platform} (name : pystr) (code : json) (s s1 s2 : state) :
  get_settlement_code name s = (Ok code, s1) ->
  rtc run_step s1 s2 ->
  SETTLEMENT_CODE_CACHE s1 !! name = Some code /\
  get_settlement_code name s2 = (Ok code, s2) /\
  requests (get_settlement_code name s2).2 = requests s2.
Proof.
  intros Hfirst Hlater.
  pose proof (get_settlement_code_stores _ _ _ _ Hfirst) as Hstored.
  pose proof (run_steps_keep _ _ _ _ Hlater Hstored) as Hkept.
  rewrite (get_settlement_code_hit _ _ _ Hkept). done.
Qed.

Lemma cache_hit_idempotent_witness :
  let s := initial []
             [ answer (candidates [(py "Szeged", code_of "123")]);
               answer (candidates [(py "Mako", code_of "456")]) ] in
  let s1 := (get_settlement_code (py "Szeged") s).2 in
  let s2 := (get_settlement_code (py "Mako") s1).2 in
  get_settlement_code (py "Szeged") s = (Ok (code_of "123"), s1) /\
  SETTLEMENT_CODE_CACHE s1 !! py "Szeged" = Some (code_of "123") /\
  get_settlement_code (py "Szeged") s2 = (Ok (code_of "123"), s2) /\
  requests (get_settlement_code (py "Szeged") s2).2 = requests s2.
Proof.
  intros s s1 s2.
  assert (get_settlement_code (py "Szeged") s = (Ok (code_of "123"), s1))
    as Hfirst by (vm_compute; reflexivity).
  split; [exact Hfirst|].
  apply (cache_hit_idempotent (py "Szeged") (code_of "123") s s1 s2 Hfirst).
  apply rtc_once. apply step_resolve.
Defined.



(** ** Loops and generators *)

Section Loops.
Context {platform : Platform}.

Lemma bind_Ok {A B} (m : M A) (f : A -> M B) s b s' :
  bind m f s = (Ok b, s') ->
  exists a s1, m s = (Ok a, s1) /\ f a s1 = (Ok b, s').
Proof.
  unfold bind. destruct (m s) as [[a|e] s1]; [|done]. by exists a, s1.
Qed.

Lemma lift_Ok {A} (r : result A) s a s' :
  lift r s = (Ok a, s') -> r = Ok a /\ s' = s.
Proof. by intros [= -> ->]. Qed.

(** A loop whose turns only append to a view of the accumulator has
    appended, when it completes, what its turns appended, in order. *)
Lemma foldM_trace {A B X Y} (f : B -> A -> M B) (view : B -> list Y)
    (items : A -> list X) (R : X -> Y -> Prop) :
  (forall acc a s acc' s',
      f acc a s = (Ok acc', s') ->
      exists ys, view acc' = view acc ++ ys /\ Forall2 R (items a) ys) ->
  forall l acc s acc' s',
    foldM f l acc s = (Ok acc', s') ->
    exists ys,
      view acc' = view acc ++ ys /\ Forall2 R (concat (map items l)) ys.
Proof.
  intros Hstep l. induction l as [|a l IH]; intros acc s acc' s' Hrun.
  - injection Hrun as <- <-. exists []. by rewrite app_nil_r.
  - cbn [foldM] in Hrun.
    apply bind_Ok in Hrun as (acc1 & s1 & Hf & Hrest).
    apply Hstep in Hf as (ys1 & Hv1 & HR1).
    apply IH in Hrest as (ys2 & Hv2 & HR2).
    exists (ys1 ++ ys2). split.
    + by rewrite Hv2, Hv1, app_assoc.
    + cbn [map concat]. by apply Forall2_app.
Qed.

(** A loop stops at the first turn that raises, with that exception. *)
Lemma foldM_raise {A B} (f : B -> A -> M B) l1 a l2 acc s acc1 s1 e s2 :
  foldM f l1 acc s = (Ok acc1, s1) ->
  f acc1 a s1 = (Raise e, s2) ->
  foldM f (l1 ++ a :: l2) acc s = (Raise e, s2).
Proof.
  revert acc s. induction l1 as [|a1 l1 IH]; intros acc s Hpre Hf.
  - injection Hpre as <- <-. cbn [app foldM]. unfold bind. by rewrite Hf.
  - cbn [app foldM] in *. unfold bind in *.
    destruct (f acc a1 s) as [[acc'|e'] s']; [|done]. by apply IH.
Qed.

Lemma retained_rows_concat rows :
  concat (map (fun row => if skipped row then [] else [row]) rows) =
  retained_rows rows.
Proof.
  induction rows as [|row rows IH]; [done|].
  cbn [map concat retained_rows List.filter].
  fold (retained_rows rows). rewrite IH. by destruct (skipped row).
Qed.

Lemma skipped_index row :
  skipped row = true <-> index row 0 = Ok CNone.
Proof.
  destruct row as [|[] row]; cbn; split; done.
Qed.

(** One turn of the loop over the rows. *)
Lemma polling_stations_row_skip {B} i (body : B -> PollingStation -> M B)
    acc row s :
  skipped row = true -> polling_stations_row i body acc row s = (Ok acc, s).
Proof. destruct row as [|[] row]; done. Qed.

Lemma polling_stations_row_emit {B} i (body : B -> PollingStation -> M B)
    acc row s :
  skipped row = false ->
  polling_stations_row i body acc row s = emit_record i body acc row s.
Proof. destruct row as [|[] row]; done. Qed.

Lemma emit_record_Ok {B} i (body : B -> PollingStation -> M B)
    acc row s acc' s' :
  emit_record i body acc row s = (Ok acc', s') ->
  exists ps s1, produced_from i row ps /\ body acc ps s1 = (Ok acc', s').
Proof.
  intros Hrest. unfold emit_record in Hrest.
  apply bind_Ok in Hrest as (c3 & ? & [Hc3 ->]%lift_Ok & Hrest).
  apply bind_Ok in Hrest as (z & ? & [Hz ->]%lift_Ok & Hrest).
  apply bind_Ok in Hrest as (c2 & ? & [Hc2 ->]%lift_Ok & Hrest).
  apply bind_Ok in Hrest as (code & s1 & Hcode & Hrest).
  apply bind_Ok in Hrest as (props & ? & [Hprops ->]%lift_Ok & Hrest).
  eexists _, s1. split; [|exact Hrest].
  exists z, code. split_and!; [|done|done].
  unfold station_int. by rewrite Hc3.
Qed.

Lemma polling_stations_row_keep {B} i (body : B -> PollingStation -> M B)
    acc row s acc' s' :
  skipped row = false ->
  polling_stations_row i body acc row s = (Ok acc', s') ->
  exists ps s1, produced_from i row ps /\ body acc ps s1 = (Ok acc', s').
Proof.
  intros Hkeep. rewrite polling_stations_row_emit by done.
  apply emit_record_Ok.
Qed.

End Loops.

(** ** Decimal renderings *)

Section Decimal.
Import Decimal.











End Decimal.

(** ** What the adapter yields *)

Section Adapter.
Context {platform : Platform}.

(** When the loop over the rows of a sheet completes, the body has run
    once for every retained row, in order, on the record built from it. *)
Lemma polling_stations_rows_trace {B Y} (body : B -> PollingStation -> M B)
    (view : B -> list Y) (P : PollingStation -> Y -> Prop) :
  (forall acc ps s acc' s',
      body acc ps s = (Ok acc', s') ->
      exists y, view acc' = view acc ++ [y] /\ P ps y) ->
  forall i rows acc s acc' s',
    foldM (polling_stations_row i body) rows acc s = (Ok acc', s') ->
    exists ys,
      view acc' = view acc ++ ys /\
      Forall2 (fun row y => exists ps, produced_from i row ps /\ P ps y)
        (retained_rows rows) ys.
Proof.
  intros Hbody i rows acc s acc' s' Hrows.
  eapply (foldM_trace _ view (fun row => if skipped row then [] else [row])
            (fun row y => exists ps, produced_from i row ps /\ P ps y))
    in Hrows as (ys & Hview & Hall).
  - exists ys. by rewrite retained_rows_concat in Hall.
  - intros acc0 row s0 acc1 s1 Hrow.
    destruct (skipped row) eqn:Hskip.
    + rewrite polling_stations_row_skip in Hrow by done.
      injection Hrow as <- <-. exists []. by rewrite app_nil_r.
    + apply polling_stations_row_keep in Hrow as (ps & s2 & Hps & Hrun);
        [|done].
      apply Hbody in Hrun as (y & Hview & Hy).
      exists [y]. split; [done|]. repeat constructor. by exists ps.
Qed.

(** The same for the whole generator. *)
Lemma polling_stations_trace {B Y} (body : B -> PollingStation -> M B)
    (view : B -> list Y) (P : PollingStation -> Y -> Prop) :
  (forall acc ps s acc' s',
      body acc ps s = (Ok acc', s') ->
      exists y, view acc' = view acc ++ [y] /\ P ps y) ->
  forall workbook acc s acc' s',
    polling_stations workbook body acc s = (Ok acc', s') ->
    exists ys,
      view acc' = view acc ++ ys /\
      Forall2 (fun ir y => exists ps, produced_from ir.1 ir.2 ps /\ P ps y)
        (retained workbook) ys.
Proof.
  intros Hbody workbook. unfold polling_stations, retained.
  apply foldM_trace. intros acc [i sheet] s acc' s' Hsheet.
  unfold polling_stations_sheet, retained_of_sheet, data_rows in *.
  cbn [fst snd] in *.
  destruct (values sheet) as [|header rows]; [done|]. cbn [tail].
  apply (polling_stations_rows_trace body view P Hbody) in Hsheet
    as (ys & Hview & Hall).
  exists ys. split; [done|]. by apply Forall2_fmap_l.
Qed.

Lemma collect_appends {A} (acc : list A) (x : A) s acc' s' :
  collect acc x s = (Ok acc', s') -> acc' = acc ++ [x] /\ s' = s.
Proof. by intros [= <- <-]. Qed.

Lemma retained_rows_length rows :
  length (retained_rows rows) + length (List.filter skipped rows) =
  length rows.
Proof.
  induction rows as [|row rows IH]; [done|].
  cbn [retained_rows List.filter]. fold (retained_rows rows).
  destruct (skipped row); cbn [negb length]; lia.
Qed.

Lemma station_api_params_county station_no code county_code :
  station_api_params station_no code county_code !! COUNTY_CODE_param =
  Some (JStr county_code).
Proof. apply lookup_insert_eq. Qed.

Lemma station_api_params_station station_no code county_code :
  station_api_params station_no code county_code !! STATION_NO_param =
  Some (JStr station_no).
Proof.
  unfold station_api_params.
  rewrite !lookup_insert_ne by (apply (bool_decide_unpack _); by vm_compute).
  apply lookup_insert_eq.
Qed.

Lemma station_api_params_settlement station_no code county_code :
  station_api_params station_no code county_code !! SETTLEMENT_CODE_param =
  Some code.
Proof.
  unfold station_api_params.
  rewrite lookup_insert_ne by (apply (bool_decide_unpack _); by vm_compute).
  apply lookup_insert_eq.
Qed.

End Adapter.

(** ** Claims about the adapter *)

Section LookupKey.
Context {platform : Platform}.







End LookupKey.



(** C6.  On a sheet where exactly one of the [N] data rows has [None] in
    its first cell, a completed pass over the sheet has emitted exactly
    [N - 1] records, one for each of the other rows and in their order; the
    row with [None] produces no record and has no effect at all. *)
Theorem one_blank_row_is_skipped
    {platform : Platform} (i : nat) (sheet : worksheet)
    (header : list cell) (rows : list (list cell))
    (acc acc' : list PollingStation) (s s' : state) :
  values sheet = header :: rows ->
  length (List.filter skipped rows) = 1 ->
  polling_stations_sheet collect acc (i, sheet) s = (Ok acc', s') ->
  (exists recs,
      acc' = acc ++ recs /\
      length recs = length rows - 1 /\
      Forall2 (produced_from i) (retained_rows rows) recs) /\
  (forall B (body : B -> PollingStation -> M B) (b : B) row s0,
      skipped row = true ->
      polling_stations_row i body b row s0 = (Ok b, s0)).
Proof.
  intros Hvalues Hone Hrun. split.
  - unfold polling_stations_sheet in Hrun. cbn [fst snd] in Hrun.
    rewrite Hvalues in Hrun.
    apply (polling_stations_rows_trace collect id (fun ps y => y = ps))
      in Hrun as (recs & Hview & Hall).
    + exists recs. split; [done|].
      assert (Forall2 (produced_from i) (retained_rows rows) recs) as Hrecs.
      { eapply Forall2_impl; [exact Hall|]. by intros row y (ps & ? & ->). }
      split; [|done].
      apply Forall2_length in Hrecs.
      pose proof (retained_rows_length rows). lia.
    + intros b ps s0 b' s1 [-> ->]%collect_appends. by exists ps.
  - intros B body b row s0. apply polling_stations_row_skip.
Qed.

Lemma one_blank_row_is_skipped_witness :
  let platform := scripted [] in
  let rows :=
    [ data_row (CInt 1) "Csongrad" "Szeged" 1 5;
      data_row CNone "Csongrad" "Szeged" 2 5;
      data_row (CInt 3) "Csongrad" "Szeged" 3 5 ] in
  let sheet := Worksheet (py "Csongrad") (header_row :: rows) in
  let s := initial [] [answer (candidates [(py "Szeged", code_of "123")])] in
  exists recs s',
    polling_stations_sheet collect [] (5, sheet) s = (Ok recs, s') /\
    exists recs',
      recs = [] ++ recs' /\
      length recs' = length rows - 1 /\
      Forall2 (produced_from 5) (retained_rows rows) recs'.
Proof.
  intros platform rows sheet s.
  pose proof
    (completed [] (polling_stations_sheet collect [] (5, sheet) s) eq_refl)
    as Hrun.
  eexists _, _. split; [exact Hrun|].
  exact (proj1 (one_blank_row_is_skipped 5 sheet header_row rows [] _ s _
                  eq_refl eq_refl Hrun)).
Defined.


(** ** The fetcher and [run] *)

Section Fetcher.
Context {platform : Platform}.

Lemma fetch_step_response {B} (body : B -> Feature -> M B) acc ps s resp w :
  session_get (map_data_request ps) (net s) = (Ok resp, w) ->
  fetch_step body acc ps s =
    body acc (mkFeature (try_geometry resp) (properties ps))
      (after_request s (map_data_request ps) w).
Proof.
  intros Hget. unfold fetch_step, bind.
  fold (map_data_request ps). by rewrite http_get_eq, Hget.
Qed.

Lemma fetch_step_transport {B} (body : B -> Feature -> M B) acc ps s e w :
  session_get (map_data_request ps) (net s) = (Raise e, w) ->
  fetch_step body acc ps s =
    (Raise e, after_request s (map_data_request ps) w).
Proof.
  intros Hget. unfold fetch_step, bind.
  fold (map_data_request ps). by rewrite http_get_eq, Hget.
Qed.

Lemma fetch_step_collect acc ps s acc' s' :
  fetch_step collect acc ps s = (Ok acc', s') ->
  exists f, acc' = acc ++ [f] /\ feature_properties f = properties ps.
Proof.
  intros Hstep.
  destruct (session_get (map_data_request ps) (net s)) as [[resp|e] w]
    eqn:Hget.
  - rewrite (fetch_step_response _ _ _ _ _ _ Hget) in Hstep.
    apply collect_appends in Hstep as [-> _]. by eexists.
  - by rewrite (fetch_step_transport _ _ _ _ _ _ Hget) in Hstep.
Qed.

(** *** What holds of the state along the way

    [Q] relates a state to a later one; it is passed on by every step of
    the generators when the lookup and the request pass it on. *)
Section Along.
Context (Q : state -> state -> Prop) `{!Reflexive Q, !Transitive Q}.
Context (Q_resolve : forall name s, Q s (get_settlement_code name s).2).
Context (Q_request : forall req s, Q s (http_get req s).2).

Lemma bind_along {A B} (m : M A) (f : A -> M B) s :
  Q s (m s).2 -> (forall a s1, Q s1 (f a s1).2) -> Q s (bind m f s).2.
Proof using Type*.
  intros Hm Hf. unfold bind. destruct (m s) as [[a|e] s1]; cbn [snd] in *.
  - by etrans.
  - done.
Qed.

Lemma foldM_along {A B} (f : B -> A -> M B) :
  (forall acc a s, Q s (f acc a s).2) ->
  forall l acc s, Q s (foldM f l acc s).2.
Proof using Type*.
  intros Hf l. induction l as [|a l IH]; intros acc s; cbn [foldM].
  - done.
  - by apply bind_along.
Qed.

Lemma polling_stations_along {B} (body : B -> PollingStation -> M B) :
  (forall acc ps s, Q s (body acc ps s).2) ->
  forall workbook acc s, Q s (polling_stations workbook body acc s).2.
Proof using Type*.
  intros Hbody workbook. apply foldM_along. intros acc [i sheet] s.
  unfold polling_stations_sheet. cbn [fst snd].
  destruct (values sheet) as [|header rows]; [done|].
  apply foldM_along. clear acc s. intros acc row s.
  unfold polling_stations_row. apply bind_along; [done|].
  intros first s1. destruct first; [done|..];
    (unfold emit_record;
     apply bind_along; [done|]; intros ? ?;
     apply bind_along; [done|]; intros ? ?;
     apply bind_along; [done|]; intros settlement_cell ?;
     apply bind_along;
       [destruct settlement_cell; [done|done|done|apply Q_resolve]|];
     intros ? ?; apply bind_along; [done|]; intros ? ?;
     apply Hbody).
Qed.

Lemma fetch_along {B} (body : B -> Feature -> M B) :
  (forall acc f s, Q s (body acc f s).2) ->
  forall workbook acc s,
    Q s (fetch_polling_station_geometries workbook body acc s).2.
Proof using Type*.
  intros Hbody. apply polling_stations_along. intros acc ps s.
  unfold fetch_step. apply bind_along; [apply Q_request|].
  intros resp s1. apply Hbody.
Qed.

End Along.

#[local] Instance same_stdout_refl : Reflexive same_stdout.
Proof. by intros s. Qed.

#[local] Instance same_stdout_trans : Transitive same_stdout.
Proof. unfold same_stdout. intros s1 s2 s3 H12 H23. congruence. Qed.

Lemma get_settlement_code_stdout name s :
  same_stdout s (get_settlement_code name s).2.
Proof.
  unfold same_stdout.
  destruct (SETTLEMENT_CODE_CACHE s !! name) as [c|] eqn:Hc.
  - by rewrite (get_settlement_code_hit _ _ _ Hc).
  - rewrite (get_settlement_code_miss _ _ Hc).
    destruct (session_get _ _) as [[resp|e'] w]; [|done].
    cbn zeta. by destruct (select_code name resp).
Qed.

Lemma http_get_stdout req s : same_stdout s (http_get req s).2.
Proof. by rewrite http_get_eq. Qed.

(** The generators print nothing, however they end. *)
Lemma fetch_prints_nothing workbook acc s :
  stdout (fetch_polling_station_geometries workbook collect acc s).2 =
  stdout s.
Proof.
  apply (fetch_along same_stdout get_settlement_code_stdout http_get_stdout).
  done.
Qed.

(** A run that raises has printed nothing. *)
Lemma run_raise_prints_nothing workbook s e s' :
  run workbook s = (Raise e, s') -> stdout s' = stdout s.
Proof.
  unfold run, bind. intros Hrun.
  pose proof (fetch_prints_nothing workbook [] s) as Hfetch.
  destruct (fetch_polling_station_geometries workbook collect [] s)
    as [[fs|e0] s0]; [done|].
  by injection Hrun as _ <-.
Qed.

End Fetcher.

Lemma failed {A S} (x : result A * S) :
  is_ok x.1 = false -> x = (Raise (error_of x.1), x.2).
Proof. by destruct x as [[a|e] s]. Qed.

Section Runs.
Context {platform : Platform}.

(** A row that is not skipped and whose cells convert hands its record to
    the consumer in the state the lookup leaves. *)
Lemma emit_record_eq {B} i (body : B -> PollingStation -> M B) acc row s
    z name code s1 props :
  station_int row = Ok z ->
  index row (column_value SETTLEMENT) = Ok (CStr name) ->
  get_settlement_code name s = (Ok code, s1) ->
  row_properties row = Ok props ->
  emit_record i body acc row s =
    body acc
      (mkPollingStation
         (station_api_params (str_int z) code (format_02 (i + 1))) props) s1.
Proof.
  intros Hz Hname Hcode Hprops. unfold emit_record, station_int in *.
  destruct (index row (column_value STATION_NO)) as [c3|]; [|done].
  cbn [rbind] in Hz. unfold bind, lift.
  rewrite Hz, Hname. cbn [settlement_code_of_cell].
  by rewrite Hcode, Hprops.
Qed.

(** A row that is not skipped and whose lookup fails raises what the
    lookup raised. *)
Lemma emit_record_resolution_fails {B} i (body : B -> PollingStation -> M B)
    acc row s z name e s1 :
  station_int row = Ok z ->
  index row (column_value SETTLEMENT) = Ok (CStr name) ->
  get_settlement_code name s = (Raise e, s1) ->
  emit_record i body acc row s = (Raise e, s1).
Proof.
  intros Hz Hname Hcode. unfold emit_record, station_int in *.
  destruct (index row (column_value STATION_NO)) as [c3|]; [|done].
  cbn [rbind] in Hz. unfold bind, lift.
  rewrite Hz, Hname. cbn [settlement_code_of_cell]. by rewrite Hcode.
Qed.

End Runs.

(** ** Claims about the fetcher and the run *)

(** C1 (as amended).  Once the request for a station's map data has
    produced a response, whatever its status, the fetcher hands exactly one
    feature with the station's full properties to its consumer, in a state
    that does not depend on the content of the response; the geometry of
    that feature is the mapped polygon when reading the body, decoding the
    payload, extracting the points and building the polygon all succeed,
    and null as soon as one of them raises.  So such a failure neither
    aborts the batch nor touches any other feature. *)
Theorem geometry_failure_is_isolated
    {platform : Platform} {B : Type} (body : B -> Feature -> M B) (acc : B)
    (features_so_far : list Feature) (ps : PollingStation) (s : state)
    (resp : response) (w : world) :
  session_get (map_data_request ps) (net s) = (Ok resp, w) ->
  fetch_step body acc ps s =
    body acc (mkFeature (try_geometry resp) (properties ps))
      (after_request s (map_data_request ps) w) /\
  fetch_step collect features_so_far ps s =
    (Ok (features_so_far ++ [mkFeature (try_geometry resp) (properties ps)]),
     after_request s (map_data_request ps) w) /\
  (forall e, fetch_geometry resp = Raise e -> try_geometry resp = None) /\
  (forall g, fetch_geometry resp = Ok g -> try_geometry resp = Some g) /\
  (forall status',
      try_geometry (mkResponse status' (json_body resp)) = try_geometry resp).
Proof.
  intros Hget. split_and!.
  - by apply fetch_step_response.
  - by rewrite (fetch_step_response _ _ _ _ _ _ Hget).
  - intros e He. unfold try_geometry. by rewrite He.
  - intros g Hg. unfold try_geometry. by rewrite Hg.
  - done.
Qed.

(** A response with status 500 whose body has no polygon. *)
Lemma geometry_failure_is_isolated_witness :
  let platform := scripted [] in
  let ps :=
    mkPollingStation
      (station_api_params (py "1") (code_of "123") (py "01"))
      [(py "COUNTY", CStr (py "Pest"))] in
  let resp := mkResponse 500 (Ok (JObj [(py "error", JNull)])) in
  let s := initial [] [Ok resp] in
  fetch_step collect [] ps s =
    (Ok [mkFeature None (properties ps)],
     after_request s (map_data_request ps) []).
Proof.
  intros platform ps resp s.
  exact (proj1 (proj2
    (geometry_failure_is_isolated collect [] [] ps s resp [] eq_refl))).
Defined.

(** C1 as stated fails.  The request itself is outside the [try] block:
    when the request for the first station's map data fails in transit, the
    error leaves the generator, no feature is produced for either station
    and nothing is printed. *)
Lemma transport_failure_aborts_batch :
  let platform := scripted [] in
  let workbook :=
    [ Worksheet (py "Pest")
        [ header_row;
          data_row (CInt 1) "Pest" "Szeged" 1 5;
          data_row (CInt 2) "Pest" "Szeged" 2 5 ] ] in
  let s :=
    initial []
      [ answer (candidates [(py "Szeged", code_of "123")]);
        Raise (ClientError (py "timed out"));
        answer (map_data (py "[]")) ] in
  (fetch_polling_station_geometries workbook collect [] s).1
    = Raise (ClientError (py "timed out")) /\
  (run workbook s).1 = Raise (ClientError (py "timed out")) /\
  stdout (run workbook s).2 = [].
Proof. split_and!; vm_compute; reflexivity. Qed.

(** C7.  When [run] completes, it has printed one collection: the list
    the fetcher yielded, as it is; and that list has one feature for each
    retained row of the workbook, sheet by sheet and row by row, carrying
    the properties of the record the adapter built from that row. *)
Theorem features_follow_record_order
    {platform : Platform} (workbook : list worksheet) (s s' : state) :
  run workbook s = (Ok tt, s') ->
  exists fs s0,
    fetch_polling_station_geometries workbook collect [] s = (Ok fs, s0) /\
    stdout s' = stdout s ++ [mkFeatureCollection fs] /\
    length fs = length (retained workbook) /\
    Forall2
      (fun ir f =>
         exists ps,
           produced_from ir.1 ir.2 ps /\
           feature_properties f = properties ps)
      (retained workbook) fs.
Proof.
  intros Hrun. unfold run in Hrun.
  apply bind_Ok in Hrun as (fs & s0 & Hfetch & Hprint).
  exists fs, s0. split; [done|].
  pose proof (fetch_prints_nothing workbook [] s) as Hout.
  rewrite Hfetch in Hout. cbn [snd] in Hout.
  injection Hprint as <-. cbn [stdout]. rewrite Hout. split; [done|].
  apply (polling_stations_trace (fetch_step collect) id
           (fun ps f => feature_properties f = properties ps))
    in Hfetch as (ys & Hview & Hall).
  - cbn in Hview. subst ys. split; [|done].
    symmetry. by eapply Forall2_length.
  - intros acc ps s1 acc' s2 Hstep.
    apply fetch_step_collect in Hstep as (f & -> & Hf). by exists f.
Qed.

Lemma features_follow_record_order_witness :
  let platform := scripted [] in
  let workbook :=
    [ Worksheet (py "Pest")
        [ header_row; data_row (CInt 1) "Pest" "Szeged" 1 5;
          data_row CNone "" "" 0 0 ];
      Worksheet (py "Csongrad")
        [ header_row; data_row (CInt 1) "Csongrad" "Mako" 4 5 ] ] in
  let s :=
    initial []
      [ answer (candidates [(py "Szeged", code_of "123")]);
        answer (map_data (py "[]"));
        answer (candidates [(py "Mako", code_of "456")]);
        answer JNull ] in
  exists fs s0,
    fetch_polling_station_geometries workbook collect [] s = (Ok fs, s0) /\
    stdout (run workbook s).2 = stdout s ++ [mkFeatureCollection fs] /\
    length fs = length (retained workbook) /\
    Forall2
      (fun ir f =>
         exists ps,
           produced_from ir.1 ir.2 ps /\
           feature_properties f = properties ps)
      (retained workbook) fs.
Proof.
  intros platform workbook s.
  pose proof (completed tt (run workbook s) eq_refl) as Hrun.
  exact (features_follow_record_order workbook s _ Hrun).
Defined.

(** C8.  One sheet with a header and the row of station 1 of Szeged in
    Pest (any first cell but [None], every counter 5); the search service
    offers the code 123 for Szeged; the map service answers with a payload
    that decodes to the points (46.0, 20.0), (46.1, 20.1), (46.0, 20.2)
    given as latitude and longitude.  Then [run] prints one collection
    with one feature; its properties are the cells of the row under the
    names of the columns ([COUNTY] is Pest, [SETTLEMENT] is Szeged,
    [STATION_NO] is 1), and its geometry is the mapping of the polygon
    built from (20.0, 46.0), (20.1, 46.1), (20.2, 46.0), longitude first
    and in that order.  Closing the ring is the work of [Polygon]. *)
Theorem end_to_end_example
    {platform : Platform} (first : cell) (s : state)
    (resp1 resp2 : response) (w1 w2 : world) (text : pystr)
    (shape : polygon) (g : json) :
  first <> CNone ->
  SETTLEMENT_CODE_CACHE s !! py "Szeged" = None ->
  session_get (search_request (py "Szeged")) (net s) = (Ok resp1, w1) ->
  json_body resp1 = Ok (candidates [(py "Szeged", code_of "123")]) ->
  session_get (station_request (py "1") (code_of "123") (py "01")) w1
    = (Ok resp2, w2) ->
  json_body resp2 = Ok (map_data text) ->
  json_loads text = Ok example_points ->
  Polygon example_coordinates = Ok shape ->
  mapping shape = Ok g ->
  exists s' props,
    run (example_workbook first) s = (Ok tt, s') /\
    stdout s' = stdout s ++ [mkFeatureCollection [mkFeature (Some g) props]] /\
    props =
      (py "COUNTY", CStr (py "Pest")) :: (py "SETTLEMENT", CStr (py "Szeged"))
        :: (py "STATION_NO", CInt 1)
        :: map (fun field => (column_name field, CInt 5))
             (drop 3 all_columns) /\
    assoc (py "COUNTY") props = Some (CStr (py "Pest")) /\
    assoc (py "SETTLEMENT") props = Some (CStr (py "Szeged")) /\
    assoc (py "STATION_NO") props = Some (CInt 1).
Proof.
  intros Hfirst Hmiss Hget1 Hbody1 Hget2 Hbody2 Hloads Hshape Hmap.
  set (props :=
         (py "COUNTY", CStr (py "Pest"))
           :: (py "SETTLEMENT", CStr (py "Szeged"))
           :: (py "STATION_NO", CInt 1)
           :: map (fun field => (column_name field, CInt 5))
                (drop 3 all_columns)).
  exists (mkState (<[py "Szeged" := code_of "123"]> (SETTLEMENT_CODE_CACHE s))
            w2
            ((requests s ++ [search_request (py "Szeged")])
               ++ [station_request (py "1") (code_of "123") (py "01")])
            (stdout s ++ [mkFeatureCollection [mkFeature (Some g) props]])),
    props.
  split_and!; [|done..].
  unfold run, fetch_polling_station_geometries, polling_stations.
  change (enumerate (example_workbook first))
    with [(0, Worksheet (py "Pest") [header_row; example_row first])].
  cbn [foldM]. unfold polling_stations_sheet. cbn [values fst snd foldM].
  assert (get_settlement_code (py "Szeged") s =
            (Ok (code_of "123"),
             mkState (<[py "Szeged" := code_of "123"]>
                        (SETTLEMENT_CODE_CACHE s))
               w1 (requests s ++ [search_request (py "Szeged")]) (stdout s)))
    as Hcode.
  { rewrite (get_settlement_code_miss _ _ Hmiss), Hget1. cbn zeta.
    unfold select_code. rewrite Hbody1. reflexivity. }
  assert (try_geometry resp2 = Some g) as Hgeometry.
  { unfold try_geometry, fetch_geometry. rewrite Hbody2. cbn [rbind].
    change (getitem (map_data text) (py "polygon"))
      with (Ok (JObj [(py "paths", JStr text)])).
    cbn [rbind].
    change (getitem (JObj [(py "paths", JStr text)]) (py "paths"))
      with (Ok (JStr text)).
    cbn [rbind json_loads_value]. rewrite Hloads.
    cbn [rbind example_points iter_json].
    change (rmapM point_pair
              [point f46_0 f20_0; point f46_1 f20_1; point f46_0 f20_2])
      with (Ok example_coordinates).
    cbn [rbind]. rewrite Hshape. cbn [rbind]. by rewrite Hmap. }
  unfold bind.
  rewrite polling_stations_row_emit by (by destruct first).
  rewrite (emit_record_eq 0 _ _ (example_row first) _ 1%Z (py "Szeged") _ _
             props eq_refl eq_refl Hcode eq_refl).
  change (str_int 1) with (py "1"). change (format_02 (0 + 1)) with (py "01").
  erewrite fetch_step_response by exact Hget2.
  rewrite Hgeometry. reflexivity.
Qed.

Lemma end_to_end_example_witness :
  let platform := scripted [(example_text, example_points)] in
  let s : state :=
    mkState ∅
      [ answer (candidates [(py "Szeged", code_of "123")]);
        answer (map_data example_text) ] [] [] in
  exists s' props,
    run (example_workbook (CInt 1)) s = (Ok tt, s') /\
    stdout s' =
      stdout s
        ++ [mkFeatureCollection [mkFeature (Some example_geometry) props]] /\
    props =
      (py "COUNTY", CStr (py "Pest")) :: (py "SETTLEMENT", CStr (py "Szeged"))
        :: (py "STATION_NO", CInt 1)
        :: map (fun field => (column_name field, CInt 5))
             (drop 3 all_columns) /\
    assoc (py "COUNTY") props = Some (CStr (py "Pest")) /\
    assoc (py "SETTLEMENT") props = Some (CStr (py "Szeged")) /\
    assoc (py "STATION_NO") props = Some (CInt 1).
Proof.
  intros platform s.
  refine (end_to_end_example (CInt 1) s
            (mkResponse 200 (Ok (candidates [(py "Szeged", code_of "123")])))
            (mkResponse 200 (Ok (map_data example_text)))
            [answer (map_data example_text)] [] example_text
            (example_coordinates ++ [(JFloat f20_0, JFloat f46_0)])
            example_geometry _ _ _ _ _ _ _ _ _).
  - discriminate.
  - reflexivity.
  - reflexivity.
  - reflexivity.
  - reflexivity.
  - reflexivity.
  - vm_compute. reflexivity.
  - vm_compute. reflexivity.
  - reflexivity.
Defined.

Lemma enumerate_lookup {A} (l : list A) k x :
  l !! k = Some x -> enumerate l !! k = Some (k, x).
Proof.
  intros Hk. unfold enumerate, zip.
  apply lookup_zip_with_Some. exists k, x. split_and!; [done| |done].
  apply lookup_seq. split; [done|]. by eapply lookup_lt_Some.
Qed.

(** C4 (as amended).  Take a run that has dealt with the sheets before
    sheet [k] and with the rows before row [j] of that sheet, and whose
    lookup of the settlement of row [j] fails with [e].  Then [run] ends by
    raising [e], nothing has been printed and the lookup has left the cache
    as it found it.  The name was not cached; if the search request
    produced a response, [e] is the error of the resolver, which carries
    the settlement name, the error that was caught (no candidate matched,
    or the response was malformed or could not be read) and the request
    parameters; if the request itself failed in transit, [e] is that
    transport error, as raised. *)
Theorem resolution_failure_aborts_run
    {platform : Platform} (workbook : list worksheet) (k : nat)
    (sheet : worksheet) (header : list cell) (rows : list (list cell))
    (j : nat) (row : list cell) (z : Z) (name : pystr)
    (s s0 s1 s2 : state) (acc0 acc1 : list Feature) (e : exn) :
  workbook !! k = Some sheet ->
  values sheet = header :: rows ->
  rows !! j = Some row ->
  skipped row = false ->
  station_int row = Ok z ->
  index row (column_value SETTLEMENT) = Ok (CStr name) ->
  foldM (polling_stations_sheet (fetch_step collect))
    (take k (enumerate workbook)) [] s = (Ok acc0, s0) ->
  foldM (polling_stations_row k (fetch_step collect)) (take j rows) acc0 s0
    = (Ok acc1, s1) ->
  get_settlement_code name s1 = (Raise e, s2) ->
  run workbook s = (Raise e, s2) /\
  stdout s2 = stdout s /\
  SETTLEMENT_CODE_CACHE s2 = SETTLEMENT_CODE_CACHE s1 /\
  SETTLEMENT_CODE_CACHE s1 !! name = None /\
  (forall resp w,
      session_get (search_request name) (net s1) = (Ok resp, w) ->
      exists cause,
        select_code name resp = Raise cause /\
        e = Exception name cause (search_params name)) /\
  (forall e' w,
      session_get (search_request name) (net s1) = (Raise e', w) -> e = e').
Proof.
  intros Hsheet Hvalues Hrow Hkeep Hz Hname Hsheets Hrows Hfail.
  assert (run workbook s = (Raise e, s2)) as Hrun.
  { unfold run, bind.
    assert (fetch_polling_station_geometries workbook collect [] s
            = (Raise e, s2)) as ->; [|done].
    unfold fetch_polling_station_geometries, polling_stations.
    rewrite <- (take_drop_middle (enumerate workbook) k (k, sheet))
      by by apply enumerate_lookup.
    eapply foldM_raise; [exact Hsheets|].
    unfold polling_stations_sheet. cbn [fst snd]. rewrite Hvalues.
    rewrite <- (take_drop_middle rows j row) by done.
    eapply foldM_raise; [exact Hrows|].
    rewrite polling_stations_row_emit by done.
    by eapply emit_record_resolution_fails. }
  assert (SETTLEMENT_CODE_CACHE s1 !! name = None) as Hmiss.
  { destruct (SETTLEMENT_CODE_CACHE s1 !! name) as [c|] eqn:Hc; [|done].
    by rewrite (get_settlement_code_hit _ _ _ Hc) in Hfail. }
  split_and!.
  - done.
  - by eapply run_raise_prints_nothing.
  - by eapply get_settlement_code_failure_cache.
  - done.
  - intros resp w Hget.
    rewrite (get_settlement_code_miss _ _ Hmiss), Hget in Hfail.
    cbn zeta in Hfail. destruct (select_code name resp) as [c|cause]; [done|].
    exists cause. split; [done|]. by injection Hfail as <- _.
  - intros e' w Hget.
    rewrite (get_settlement_code_miss _ _ Hmiss), Hget in Hfail.
    by injection Hfail as <- _.
Qed.

(** The second station is in a settlement for which the search service
    offers no candidate with a matching name. *)
Lemma resolution_failure_aborts_run_witness :
  let platform := scripted [] in
  let rows :=
    [ data_row (CInt 1) "Csongrad" "Szeged" 1 5;
      data_row (CInt 2) "Csongrad" "Mako" 2 5 ] in
  let workbook := [Worksheet (py "Csongrad") (header_row :: rows)] in
  let s :=
    initial []
      [ answer (candidates [(py "Szeged", code_of "123")]);
        answer (map_data (py "[]"));
        answer (candidates [(py "Makovec", code_of "456")]) ] in
  (run workbook s).1 =
    Raise (Exception (py "Mako") StopIteration (search_params (py "Mako")))
  /\ stdout (run workbook s).2 = [].
Proof.
  intros platform rows workbook s.
  pose proof
    (completed []
       (foldM (polling_stations_row 0 (fetch_step collect)) (take 1 rows)
          [] s) eq_refl) as Hrows.
  pose proof
    (failed
       (get_settlement_code (py "Mako")
          (foldM (polling_stations_row 0 (fetch_step collect)) (take 1 rows)
             [] s).2) eq_refl) as Hfail.
  destruct (resolution_failure_aborts_run workbook 0
              (Worksheet (py "Csongrad") (header_row :: rows)) header_row
              rows 1 (data_row (CInt 2) "Csongrad" "Mako" 2 5) 2 (py "Mako")
              s s _ _ [] _ _
              eq_refl eq_refl eq_refl eq_refl eq_refl eq_refl eq_refl
              Hrows Hfail)
    as (Hrun & Hout & _).
  split.
  - rewrite Hrun. vm_compute. reflexivity.
  - rewrite Hrun. exact Hout.
Defined.

(** C4 as stated fails for a transport error.  The search request is
    outside the [try] block: when it fails in transit, the lookup raises
    that error as it is, not the error that carries the name and the
    parameters. *)
Lemma transport_failure_is_not_wrapped :
  (@get_settlement_code (scripted []) (py "Szeged")
     (initial [] [Raise (ClientError (py "timed out"))])).1
  = Raise (ClientError (py "timed out")).
Proof. reflexivity. Qed.

(** ** Every run is a sequence of steps

    The states that [run] goes through are related by [run_step], the
    relation under which a cached code is kept. *)

Section Steps.
Context {platform : Platform}.

Lemma fetch_is_steps workbook acc s :
  rtc run_step s
    (fetch_polling_station_geometries workbook collect acc s).2.
Proof.
  apply (fetch_along (rtc run_step)).
  - intros name s0. apply rtc_once, step_resolve.
  - intros req s0. apply rtc_once, step_request.
  - done.
Qed.

Lemma run_is_steps workbook s : rtc run_step s (run workbook s).2.
Proof.
  unfold run, bind.
  pose proof (fetch_is_steps workbook [] s) as Hfetch.
  destruct (fetch_polling_station_geometries workbook collect [] s)
    as [[fs|e] s0]; cbn [snd] in *; [|done].
  etrans; [exact Hfetch|]. apply rtc_once.
  apply (step_print (mkFeatureCollection fs)).
Qed.

End Steps.

(** * Further properties of the script *)

(** ** The resolver *)

Section ResolverMore.
Context {platform : Platform}.

Lemma next_code_passed_over name pre rest :
  Forall (passed_over name) pre ->
  next_code name (pre ++ rest) = next_code name rest.
Proof.
  induction 1 as [|c pre Hc _ IH]; [done|].
  cbn [app next_code]. unfold passed_over in Hc. by rewrite Hc.
Qed.

(** How the generator expression ends on any list of candidates. *)
Lemma next_code_cases name cands :
  match next_code name cands with
  | Ok code =>
      exists pre c post,
        cands = pre ++ c :: post /\
        Forall (passed_over name) pre /\
        candidate_matches name c = Ok true /\
        getitem c (py "telepulesKod") = Ok code
  | Raise e =>
      (e = StopIteration /\ Forall (passed_over name) cands) \/
      exists pre c post,
        cands = pre ++ c :: post /\
        Forall (passed_over name) pre /\
        (candidate_matches name c = Raise e \/
         candidate_matches name c = Ok true /\
         getitem c (py "telepulesKod") = Raise e)
  end.
Proof.
  induction cands as [|c cands IH]; [by left|].
  cbn [next_code].
  destruct (candidate_matches name c) as [[|]|e] eqn:Hc; cbn [rbind].
  - destruct (getitem c (py "telepulesKod")) as [code|e] eqn:Hcode.
    + exists [], c, cands. by split_and!.
    + right. exists [], c, cands. split_and!; [done|done|]. by right.
  - destruct (next_code name cands) as [code|e].
    + destruct IH as (pre & c' & post & -> & Hpre & Hc' & Hcode).
      exists (c :: pre), c', post. split_and!; [done| |done|done].
      by constructor.
    + destruct IH as [[-> Hall]|(pre & c' & post & -> & Hpre & Hc')].
      * left. split; [done|]. by constructor.
      * right. exists (c :: pre), c', post. split_and!; [done| |done].
        by constructor.
  - right. exists [], c, cands. split_and!; [done|done|]. by left.
Qed.

Lemma lookup_requests_eq name s :
  requests (get_settlement_code name s).2 =
  requests s ++ lookup_requests name s.
Proof.
  unfold lookup_requests.
  destruct (SETTLEMENT_CODE_CACHE s !! name) as [c|] eqn:Hc.
  - rewrite (get_settlement_code_hit _ _ _ Hc). cbn. by rewrite app_nil_r.
  - rewrite (get_settlement_code_miss _ _ Hc).
    destruct (session_get _ _) as [[resp|e'] w]; [|done].
    cbn zeta. by destruct (select_code name resp).
Qed.

Lemma get_settlement_code_failure_miss name e s s' :
  get_settlement_code name s = (Raise e, s') ->
  SETTLEMENT_CODE_CACHE s !! name = None.
Proof.
  destruct (SETTLEMENT_CODE_CACHE s !! name) as [c|] eqn:Hc; [|done].
  by rewrite (get_settlement_code_hit _ _ _ Hc).
Qed.

End ResolverMore.

(** X1.  A cache entry that exists when [run] starts is still there, with
    the same code, when [run] ends, however it ends. *)
Theorem run_keeps_cache_entries
    {platform : Platform} (workbook : list worksheet) (s : state)
    (name : pystr) (code : json) :
  SETTLEMENT_CODE_CACHE s !! name = Some code ->
  SETTLEMENT_CODE_CACHE (run workbook s).2 !! name = Some code.
Proof. intros Hk. eapply run_steps_keep; [apply run_is_steps|done]. Qed.

Lemma run_keeps_cache_entries_witness :
  let platform := scripted [] in
  let workbook :=
    [ Worksheet (py "Pest")
        [header_row; data_row (CInt 1) "Pest" "Vac" 1 5] ] in
  let s : state :=
    mkState {[ py "Szeged" := code_of "123" ]}
      [ answer (candidates [(py "Vac", code_of "77")]); answer JNull ] [] [] in
  SETTLEMENT_CODE_CACHE (run workbook s).2 !! py "Szeged"
    = Some (code_of "123").
Proof.
  intros platform workbook s.
  apply (run_keeps_cache_entries workbook s (py "Szeged") (code_of "123")).
  reflexivity.
Defined.

(** X2.  A lookup sends no request when the name is cached and exactly one
    when it is not: the request to [API_BASE_URL] whose parameters are
    those of [API_SEARCH_PARAMS], none of them replaced, and the name under
    the keyword parameter. *)
Theorem lookup_sends_at_most_one_request
    {platform : Platform} (name : pystr) (s : state) :
  requests (get_settlement_code name s).2 =
    requests s ++ lookup_requests name s /\
  length (lookup_requests name s) <= 1 /\
  (lookup_requests name s = [] <->
   is_Some (SETTLEMENT_CODE_CACHE s !! name)) /\
  url (search_request name) = API_BASE_URL /\
  params (search_request name) !! keywords_param = Some (JStr name) /\
  API_SEARCH_PARAMS !! keywords_param = None /\
  (forall k, k <> keywords_param ->
     params (search_request name) !! k = API_SEARCH_PARAMS !! k).
Proof.
  split_and!.
  - apply lookup_requests_eq.
  - unfold lookup_requests. destruct (_ !! name); cbn; lia.
  - unfold lookup_requests. destruct (_ !! name) as [c|].
    + split; [by eexists|done].
    + split; [done|]. by intros [c Hc].
  - done.
  - apply lookup_insert_eq.
  - apply (bool_decide_unpack _). by vm_compute.
  - intros k Hk. cbn [search_request params]. unfold search_params.
    by rewrite lookup_insert_ne.
Qed.

(** X3.  A lookup that fails has sent its request and cached nothing, so
    the same lookup made again misses the cache again and sends the request
    once more. *)
Theorem failed_lookup_is_tried_again
    {platform : Platform} (name : pystr) (e : exn) (s s' : state) :
  get_settlement_code name s = (Raise e, s') ->
  SETTLEMENT_CODE_CACHE s' !! name = None /\
  requests s' = requests s ++ [search_request name] /\
  requests (get_settlement_code name s').2 =
    requests s' ++ [search_request name].
Proof.
  intros Hfail.
  pose proof (get_settlement_code_failure_miss _ _ _ _ Hfail) as Hmiss.
  pose proof (get_settlement_code_failure_cache _ _ _ _ Hfail) as Hcache.
  assert (SETTLEMENT_CODE_CACHE s' !! name = None) as Hmiss'
    by (by rewrite Hcache).
  split_and!; [done| |].
  - pose proof (lookup_requests_eq name s) as Hreq.
    rewrite Hfail in Hreq. cbn [snd] in Hreq.
    unfold lookup_requests in Hreq. by rewrite Hmiss in Hreq.
  - rewrite lookup_requests_eq. unfold lookup_requests. by rewrite Hmiss'.
Qed.

Lemma failed_lookup_is_tried_again_witness :
  let platform := scripted [] in
  let s := initial [] [answer (candidates []); answer (candidates [])] in
  let s' := (get_settlement_code (py "Szeged") s).2 in
  SETTLEMENT_CODE_CACHE s' !! py "Szeged" = None /\
  requests s' = requests s ++ [search_request (py "Szeged")] /\
  requests (get_settlement_code (py "Szeged") s').2 =
    requests s' ++ [search_request (py "Szeged")].
Proof.
  intros platform s s'.
  exact (failed_lookup_is_tried_again (py "Szeged") _ s s'
           (failed (get_settlement_code (py "Szeged") s) eq_refl)).
Defined.

(** X4.  Whatever the name, a lookup that misses the cache and succeeds
    returns the [telepulesKod] of a candidate of the response: the first
    one that the pattern matches, every candidate before it having been
    examined and passed over.  The cache then holds that code under the
    name and is otherwise as before. *)
Theorem resolved_code_is_a_candidate_code
    {platform : Platform} (name : pystr) (code : json) (s s' : state)
    (resp : response) (w : world) :
  SETTLEMENT_CODE_CACHE s !! name = None ->
  session_get (search_request name) (net s) = (Ok resp, w) ->
  get_settlement_code name s = (Ok code, s') ->
  (exists data pre c post,
      json_body resp = Ok data /\
      iter_json data = Ok (pre ++ c :: post) /\
      Forall (passed_over name) pre /\
      candidate_matches name c = Ok true /\
      getitem c (py "telepulesKod") = Ok code) /\
  SETTLEMENT_CODE_CACHE s' = <[name := code]> (SETTLEMENT_CODE_CACHE s) /\
  net s' = w /\
  stdout s' = stdout s.
Proof.
  intros Hmiss Hget Hok.
  rewrite (get_settlement_code_miss _ _ Hmiss), Hget in Hok. cbn zeta in Hok.
  destruct (select_code name resp) as [code'|e] eqn:Hsel; [|done].
  injection Hok as -> <-. split; [|done].
  unfold select_code in Hsel.
  destruct (json_body resp) as [data|]; [|done]. cbn [rbind] in Hsel.
  destruct (iter_json data) as [cands|] eqn:Hiter; [|done].
  cbn [rbind] in Hsel.
  pose proof (next_code_cases name cands) as Hcases. rewrite Hsel in Hcases.
  destruct Hcases as (pre & c & post & -> & Hpre & Hc & Hcode).
  by exists data, pre, c, post.
Qed.

Lemma resolved_code_is_a_candidate_code_witness :
  let platform := scripted [] in
  let s :=
    initial []
      [answer (candidates [ (py "Nagy Szeged", code_of "1");
                            (py "Szeged", code_of "2") ])] in
  let s' := (get_settlement_code (py "Szeged") s).2 in
  SETTLEMENT_CODE_CACHE s' =
    <[py "Szeged" := code_of "2"]> (SETTLEMENT_CODE_CACHE s).
Proof.
  intros platform s s'.
  exact (proj1 (proj2
    (resolved_code_is_a_candidate_code (py "Szeged") (code_of "2") s s'
       (mkResponse 200 (Ok (candidates [ (py "Nagy Szeged", code_of "1");
                                         (py "Szeged", code_of "2") ])))
       [] eq_refl eq_refl
       (completed JNull (get_settlement_code (py "Szeged") s) eq_refl)))).
Defined.

Section CandidatesMore.
Context {platform : Platform}.

Lemma candidate_matches_compiled name r c :
  re_compile (settlement_pattern name) = Parsed r ->
  candidate_matches name c = rbind (display_of c) (fun d => Ok (re_match r d)).
Proof.
  intros Hr. unfold candidate_matches, re_compile_matcher, display_of.
  rewrite Hr. cbn [rbind].
  destruct (getitem c (py "telepulesNeve")) as [[]|]; done.
Qed.

Lemma candidate_matches_invalid name c :
  re_compile (settlement_pattern name) = Invalid ->
  candidate_matches name c = Raise re_error.
Proof.
  intros Hr. unfold candidate_matches, re_compile_matcher. by rewrite Hr.
Qed.

Lemma passed_over_ordinary name display code :
  ordinary name -> line_feed ∉ display -> ~ anchored name display ->
  passed_over name (candidate display code).
Proof.
  intros Hname Hd Hno. unfold passed_over.
  destruct (candidate_matches_ordinary name display code Hname Hd)
    as ([] & -> & Hhit); [|done].
  destruct Hno. by apply Hhit.
Qed.

Lemma candidate_fails_raises name c e :
  ordinary name -> candidate_fails name c e ->
  candidate_matches name c = Raise e \/
  candidate_matches name c = Ok true /\
  getitem c (py "telepulesKod") = Raise e.
Proof.
  intros Hname Hfails.
  rewrite (candidate_matches_compiled _ _ _
             (settlement_pattern_ordinary name Hname)).
  destruct Hfails as [->|(d & -> & Hd & Hanchored & Hcode)]; [by left|].
  right. split; [|done]. cbn [rbind]. f_equal.
  by apply re_match_ordinary.
Qed.

Lemma next_code_first_failure name pre c post e :
  Forall (passed_over name) pre ->
  (candidate_matches name c = Raise e \/
   candidate_matches name c = Ok true /\
   getitem c (py "telepulesKod") = Raise e) ->
  next_code name (pre ++ c :: post) = Raise e.
Proof.
  intros Hpre Hc. rewrite next_code_passed_over by done. cbn [next_code].
  destruct Hc as [->|[-> ->]]; done.
Qed.

Lemma next_code_invalid name cands :
  re_compile (settlement_pattern name) = Invalid ->
  next_code name cands =
    match cands with
    | [] => Raise StopIteration
    | _ :: _ => Raise re_error
    end.
Proof.
  intros Hinvalid. destruct cands as [|c cands]; [done|].
  cbn [next_code]. by rewrite candidate_matches_invalid.
Qed.

End CandidatesMore.

(** X5.  Candidates are examined in order and nothing is skipped over.
    For a name without special characters, when the candidates before [c]
    are well formed and not accepted and [c] has no display name that is a
    string, or is accepted and has no code, the lookup fails with that
    error as the cause and caches nothing, whatever candidates come after
    [c], a perfect match included. *)
Theorem first_failing_candidate_aborts_lookup
    {platform : Platform} (name : pystr) (pre : list (pystr * json))
    (c : json) (post : list json) (e : exn) (s : state) (resp : response)
    (w : world) :
  ordinary name ->
  Forall (fun dc => (line_feed ∉ dc.1) /\ ~ anchored name dc.1) pre ->
  candidate_fails name c e ->
  SETTLEMENT_CODE_CACHE s !! name = None ->
  session_get (search_request name) (net s) = (Ok resp, w) ->
  json_body resp =
    Ok (JArr (map (fun dc => candidate dc.1 dc.2) pre ++ c :: post)) ->
  get_settlement_code name s =
    (Raise (Exception name e (search_params name)),
     after_request s (search_request name) w).
Proof.
  intros Hname Hpre Hc Hmiss Hget Hbody.
  rewrite (get_settlement_code_miss _ _ Hmiss), Hget. cbn zeta.
  unfold select_code. rewrite Hbody. cbn [rbind iter_json].
  rewrite (next_code_first_failure name _ c post e); [done| |].
  - apply Forall_fmap. eapply Forall_impl; [exact Hpre|].
    intros [d code] [Hd Hno]. by apply passed_over_ordinary.
  - by apply candidate_fails_raises.
Qed.

(** The second candidate has no display name; the third would match. *)
Lemma first_failing_candidate_aborts_lookup_witness :
  let platform := scripted [] in
  let bad := JObj [(py "telepulesKod", code_of "2")] in
  let s :=
    initial []
      [answer (JArr [ candidate (py "Nagy Szeged") (code_of "1"); bad;
                      candidate (py "Szeged") (code_of "3") ])] in
  get_settlement_code (py "Szeged") s =
    (Raise (Exception (py "Szeged") (KeyError (py "telepulesNeve"))
              (search_params (py "Szeged"))),
     after_request s (search_request (py "Szeged")) []).
Proof.
  intros platform bad s.
  refine (first_failing_candidate_aborts_lookup (py "Szeged")
            [(py "Nagy Szeged", code_of "1")] bad
            [candidate (py "Szeged") (code_of "3")]
            (KeyError (py "telepulesNeve")) s
            (mkResponse 200 (Ok (JArr [ candidate (py "Nagy Szeged")
                                          (code_of "1"); bad;
                                        candidate (py "Szeged")
                                          (code_of "3") ])))
            [] _ _ _ eq_refl eq_refl eq_refl).
  - evaluate.
  - evaluate.
  - left. reflexivity.
Defined.

(** X6.  A name that starts with [*], [+] or [?] makes an invalid pattern:
    the repetition would apply to [^].  Such a name is never resolved by a
    lookup that misses the cache; as soon as the response offers a
    candidate, the cause of the failure is the pattern error, raised when
    the first candidate is examined. *)
Theorem leading_repetition_never_resolves
    {platform : Platform} (c : N) (rest : pystr) (s : state) :
  is_repetition c = true ->
  SETTLEMENT_CODE_CACHE s !! (c :: rest) = None ->
  re_compile (settlement_pattern (c :: rest)) = Invalid /\
  is_ok (get_settlement_code (c :: rest) s).1 = false /\
  (forall resp w data first others,
      session_get (search_request (c :: rest)) (net s) = (Ok resp, w) ->
      json_body resp = Ok data ->
      iter_json data = Ok (first :: others) ->
      (get_settlement_code (c :: rest) s).1 =
        Raise (Exception (c :: rest) re_error (search_params (c :: rest)))).
Proof.
  intros Hc Hmiss.
  assert (re_compile (settlement_pattern (c :: rest)) = Invalid) as Hinvalid.
  { unfold re_compile, settlement_pattern.
    change (py "^" ++ (c :: rest) ++ py "(?: .+)?$")
      with (94%N :: c :: rest ++ py "(?: .+)?$").
    unfold is_repetition in Hc.
    replace (parse (94%N :: c :: rest ++ py "(?: .+)?$") [] [] [])
      with (parse (c :: rest ++ py "(?: .+)?$") [] [] [RBol]) by done.
    cbn [parse]. by destruct (repeat_of_char c). }
  split; [done|].
  rewrite (get_settlement_code_miss _ _ Hmiss). split.
  - destruct (session_get _ _) as [[resp|e] w]; [|done]. cbn zeta.
    unfold select_code.
    destruct (json_body resp) as [data|e]; [|done]. cbn [rbind].
    destruct (iter_json data) as [cands|e]; [|done]. cbn [rbind].
    by rewrite next_code_invalid by done; destruct cands.
  - intros resp w data first others Hget Hbody Hiter.
    rewrite Hget. cbn zeta. unfold select_code.
    rewrite Hbody. cbn [rbind]. rewrite Hiter. cbn [rbind].
    by rewrite next_code_invalid.
Qed.

Lemma leading_repetition_never_resolves_witness :
  let platform := scripted [] in
  let s := initial [] [answer (candidates [(py "*", code_of "1")])] in
  (get_settlement_code (py "*") s).1 =
    Raise (Exception (py "*") re_error (search_params (py "*"))).
Proof.
  intros platform s.
  refine (proj2 (proj2
    (leading_repetition_never_resolves 42%N [] s eq_refl eq_refl))
    (mkResponse 200 (Ok (candidates [(py "*", code_of "1")]))) []
    _ _ _ eq_refl eq_refl eq_refl).
Defined.

(** ** The pattern of an ordinary name, line feeds included *)

Section MatchingMore.

Lemma at_end_spec at_start s :
  at_end at_start s = true <-> s = [] \/ s = [line_feed].
Proof.
  destruct s as [|c [|c' s]]; cbn.
  - split; [by left|done].
  - rewrite andb_true_r, N.eqb_eq. split.
    + intros ->. by right.
    + by intros [|[= ->]].
  - split; [done|]. by intros [|].
Qed.

(** [.*] and then the end of the subject. *)
Lemma star_any_at_end n s at_start :
  length s <= n ->
  star_loop (re_run RAny) n at_start s at_end = true <->
  exists p, (line_feed ∉ p) /\ (s = p \/ s = p ++ [line_feed]).
Proof.
  revert s at_start. induction n as [|n IH]; intros s at_start Hn.
  - destruct s; [|simpl in Hn; lia]. cbn. split; [|done].
    intros _. exists []. split; [set_solver|by left].
  - cbn [star_loop]. rewrite orb_true_iff, at_end_spec.
    destruct s as [|c s].
    + split; [|by left; left]. intros _. exists [].
      split; [set_solver|by left].
    + cbn [re_run].
      assert ((length s <? length (c :: s)) = true) as ->
        by (apply Nat.ltb_lt; simpl; lia).
      cbn [andb]. rewrite andb_true_iff, negb_true_iff, N.eqb_neq.
      rewrite IH by (simpl in Hn; lia). split.
      * intros [[|[= -> ->]]|[Hc (p & Hp & Hs)]]; [done| |].
        -- exists []. split; [set_solver|by right].
        -- exists (c :: p). split; [set_solver|].
           destruct Hs as [->| ->]; [by left|by right].
      * intros (p & Hp & Hs). destruct p as [|c' p].
        -- left. destruct Hs as [|Hs]; [done|by right].
        -- right.
           assert (c = c' /\ (s = p \/ s = p ++ [line_feed])) as [-> Hs'].
           { destruct Hs as [[= -> ->]|[= -> ->]]; split; auto. }
           split; [set_solver|]. exists p. split; [set_solver|done].
Qed.

Lemma suffix_part_spec at_start s :
  re_run (seq_of [ROpt suffix_group; REol]) at_start s (fun _ _ => true)
    = true <->
  s = [] \/ s = [line_feed] \/
  exists suffix,
    suffix <> [] /\ (line_feed ∉ suffix) /\
    (s = space :: suffix \/ s = space :: suffix ++ [line_feed]).
Proof.
  rewrite re_run_suffix_part, orb_true_iff, at_end_spec. split.
  - intros [Hgroup|[|]]; [|by left|by right; left].
    destruct s as [|c s]; [done|].
    apply andb_true_iff in Hgroup as [->%N.eqb_eq Hplus].
    rewrite re_run_plus_any in Hplus. destruct s as [|c' s]; [done|].
    apply andb_true_iff in Hplus as [Hc'%negb_true_iff%N.eqb_neq Hstar].
    apply star_any_at_end in Hstar as (p & Hp & Hs); [|done].
    right; right. exists (c' :: p). split_and!; [done|set_solver|].
    destruct Hs as [->| ->]; [by left|by right].
  - intros [->|[->|(suffix & Hne & Hlf & Hs)]]; [by right; left|by right; right|].
    left. destruct suffix as [|c' p]; [done|].
    assert (s = space :: c' :: (if decide (s = space :: c' :: p)
                                 then p else p ++ [line_feed])) as ->.
    { destruct Hs as [->| ->]; [by rewrite decide_True|].
      rewrite decide_False; [done|].
      intros Heq. apply (f_equal length) in Heq.
      cbn in Heq. rewrite length_app in Heq. cbn in Heq. lia. }
    rewrite N.eqb_refl. cbn [andb]. rewrite re_run_plus_any.
    apply andb_true_iff. split.
    + apply negb_true_iff, N.eqb_neq. set_solver.
    + apply star_any_at_end; [done|]. exists p. split; [set_solver|].
      case_decide; [by left|by right].
Qed.

Lemma re_match_ordinary_exact name display :
  re_match (seq_of (RBol :: map RLit name ++ [ROpt suffix_group; REol]))
    display = true <-> accepted name display.
Proof.
  unfold re_match, accepted.
  cbn [seq_of foldr re_run andb].
  fold (seq_of (map RLit name ++ [ROpt suffix_group; REol])).
  rewrite re_run_literals.
  destruct (strip name display) as [rest|] eqn:Hstrip.
  - apply strip_Some in Hstrip as ->. rewrite suffix_part_spec. split.
    + intros [->|[->|(suffix & Hne & Hlf & [->| ->])]].
      * left. by rewrite app_nil_r.
      * by right; left.
      * right; right. exists suffix. split_and!; [done|done|by left].
      * right; right. exists suffix. split_and!; [done|done|by right].
    + intros [Heq|[Heq|(suffix & Hne & Hlf & [Heq|Heq])]].
      * left. rewrite <- (app_nil_r name) in Heq at 2.
        by apply app_inv_head in Heq.
      * right; left. by apply app_inv_head in Heq.
      * right; right. apply app_inv_head in Heq. subst rest.
        exists suffix. split_and!; [done|done|by left].
      * right; right. apply app_inv_head in Heq. subst rest.
        exists suffix. split_and!; [done|done|by right].
  - split; [done|].
    assert (forall rest, display <> name ++ rest) as Hno.
    { intros rest Heq. apply strip_Some in Heq. congruence. }
    intros [Heq|[Heq|(suffix & _ & _ & [Heq|Heq])]].
    + destruct (Hno []). by rewrite app_nil_r.
    + by destruct (Hno [line_feed]).
    + by destruct (Hno (space :: suffix)).
    + by destruct (Hno (space :: suffix ++ [line_feed])).
Qed.

End MatchingMore.

(** X7.  For a name without special characters the condition of the
    generator expression holds of a well-formed candidate exactly when its
    display name is the name, or the name, a space and a suffix that is not
    empty and holds no line feed, each possibly followed by one final line
    feed. *)
Theorem ordinary_name_accepts_exactly
    {platform : Platform} (name display : pystr) (code : json) :
  ordinary name ->
  exists hit,
    candidate_matches name (candidate display code) = Ok hit /\
    (hit = true <-> accepted name display).
Proof.
  intros Hname. unfold candidate_matches, re_compile_matcher.
  rewrite settlement_pattern_ordinary by done.
  eexists. split; [reflexivity|]. apply re_match_ordinary_exact.
Qed.

Lemma ordinary_name_accepts_exactly_witness :
  exists hit,
    @candidate_matches (scripted []) (py "Szeged")
      (candidate (py "Szeged X" ++ [line_feed]) (code_of "1")) = Ok hit /\
    (hit = true <->
     accepted (py "Szeged") (py "Szeged X" ++ [line_feed])).
Proof.
  refine (@ordinary_name_accepts_exactly (scripted []) (py "Szeged")
            (py "Szeged X" ++ [line_feed]) (code_of "1") _).
  evaluate.
Defined.

(** ** The adapter *)

Section AdapterMore.
Context {platform : Platform}.

Lemma rmapM_Ok_map {A B} (f : A -> result B) (g : A -> B) l :
  (forall a, a ∈ l -> f a = Ok (g a)) -> rmapM f l = Ok (map g l).
Proof.
  induction l as [|a l IH]; intros Hall; [done|].
  cbn [rmapM map]. rewrite Hall by left. cbn [rbind].
  rewrite IH; [done|]. intros a' Ha'. apply Hall. by right.
Qed.

(** When every failure is the same exception and some element fails, that
    exception is raised. *)
Lemma rmapM_uniform_error {A B} (f : A -> result B) l e :
  (forall a e', a ∈ l -> f a = Raise e' -> e' = e) ->
  (exists a, a ∈ l /\ is_ok (f a) = false) ->
  rmapM f l = Raise e.
Proof.
  induction l as [|a l IH]; intros Hsame (a0 & Ha0 & Hfail).
  - by apply elem_of_nil in Ha0.
  - cbn [rmapM]. destruct (f a) as [b|e'] eqn:Hfa; cbn [rbind].
    + rewrite IH; [done| |].
      * intros a' e' Ha'. apply Hsame. by right.
      * apply elem_of_cons in Ha0 as [->|Ha0]; [by rewrite Hfa in Hfail|].
        by exists a0.
    + f_equal. eapply Hsame; [by left|done].
Qed.

Lemma column_value_range field : 1 <= column_value field <= 19.
Proof. destruct field; cbn; lia. Qed.

Lemma row_properties_short row :
  length row < 20 -> row_properties row = Raise IndexError.
Proof.
  intros Hlen. unfold row_properties. apply rmapM_uniform_error.
  - intros field e' _. unfold index.
    destruct (row !! column_value field); [done|]. by intros [= <-].
  - exists BALLOT_COUNT_LMP. split; [repeat constructor|].
    unfold index. rewrite lookup_ge_None_2; [done|]. cbn. lia.
Qed.

Lemma row_properties_long row :
  20 <= length row ->
  row_properties row =
    Ok (map (fun field =>
               (column_name field, default CNone (row !! column_value field)))
          all_columns).
Proof.
  intros Hlen. unfold row_properties. apply rmapM_Ok_map.
  intros field _. unfold index.
  destruct (lookup_lt_is_Some_2 row (column_value field)) as [c ->]; [|done].
  pose proof (column_value_range field). lia.
Qed.

(** What a completed turn on a retained row went through. *)
Lemma emit_record_inv {B} i (body : B -> PollingStation -> M B)
    acc row s acc' s' :
  emit_record i body acc row s = (Ok acc', s') ->
  exists z name code s1 props,
    station_int row = Ok z /\
    index row (column_value SETTLEMENT) = Ok (CStr name) /\
    get_settlement_code name s = (Ok code, s1) /\
    row_properties row = Ok props /\
    body acc
      (mkPollingStation
         (station_api_params (str_int z) code (format_02 (i + 1))) props) s1
    = (Ok acc', s').
Proof.
  intros Hrest. unfold emit_record in Hrest.
  apply bind_Ok in Hrest as (c3 & ? & [Hc3 ->]%lift_Ok & Hrest).
  apply bind_Ok in Hrest as (z & ? & [Hz ->]%lift_Ok & Hrest).
  apply bind_Ok in Hrest as (c2 & ? & [Hc2 ->]%lift_Ok & Hrest).
  apply bind_Ok in Hrest as (code & s1 & Hcode & Hrest).
  apply bind_Ok in Hrest as (props & ? & [Hprops ->]%lift_Ok & Hrest).
  destruct c2 as [| | |name]; try done.
  exists z, name, code, s1, props. split_and!; try done.
  unfold station_int. by rewrite Hc3.
Qed.

(** A turn that cannot build the properties raises before the consumer
    runs, whoever the consumer is. *)
Lemma emit_record_no_properties {B} i (body : B -> PollingStation -> M B)
    acc row s e :
  row_properties row = Raise e ->
  exists e' s',
    emit_record i body acc row s = (Raise e', s') /\
    forall B' (body' : B' -> PollingStation -> M B') acc',
      emit_record i body' acc' row s = (Raise e', s').
Proof.
  intros Hprops. unfold emit_record, bind, lift. rewrite Hprops.
  destruct (index row (column_value STATION_NO)) as [c3|e3];
    [|by eexists _, _].
  destruct (int_of_cell c3) as [z|ez]; [|by eexists _, _].
  destruct (index row (column_value SETTLEMENT)) as [c2|e2];
    [|by eexists _, _].
  destruct (settlement_code_of_cell c2 s) as [[code|ec] s1];
    by eexists _, _.
Qed.

End AdapterMore.

(** X8.  The properties of a record are the cells 1 to 19 of its row under
    the nineteen column names, which are distinct, in the order of their
    definition; the first cell of the row is not among them.  A row with
    fewer than twenty cells has no properties: building them raises
    [IndexError]. *)
Theorem row_properties_fields {platform : Platform} (row : list cell) :
  (length row < 20 -> row_properties row = Raise IndexError) /\
  (20 <= length row ->
   exists props,
     row_properties row = Ok props /\
     map fst props = map column_name all_columns /\
     Forall2 (fun field kv => row !! column_value field = Some kv.2)
       all_columns props) /\
  NoDup (map column_name all_columns) /\
  length all_columns = 19 /\
  (forall field, 1 <= column_value field <= 19).
Proof.
  split_and!.
  - apply row_properties_short.
  - intros Hlen. eexists. split; [by apply row_properties_long|]. split.
    + by rewrite <- list_fmap_compose.
    + apply Forall2_fmap_r, Forall_Forall2_diag, Forall_forall.
      intros field _. unfold compose. cbn [snd].
      destruct (lookup_lt_is_Some_2 row (column_value field)) as [c ->];
        [|done].
      pose proof (column_value_range field). lia.
  - apply (bool_decide_unpack _). by vm_compute.
  - done.
  - apply column_value_range.
Qed.

(** X9.  A row that is not skipped and has fewer than twenty cells makes
    the adapter raise, and its record never reaches the consumer: the
    outcome is the same for every consumer. *)
Theorem short_row_never_reaches_consumer
    {platform : Platform} (i : nat) (row : list cell) (s : state) :
  skipped row = false ->
  length row < 20 ->
  exists e s',
    forall B (body : B -> PollingStation -> M B) (acc : B),
      polling_stations_row i body acc row s = (Raise e, s').
Proof.
  intros Hkeep Hlen.
  destruct (emit_record_no_properties i (collect (A:=PollingStation)) [] row s
              IndexError (row_properties_short row Hlen))
    as (e & s' & _ & Hall).
  exists e, s'. intros B body acc.
  rewrite polling_stations_row_emit by done. apply Hall.
Qed.

(** A row of four cells: the lookup takes place, then the properties
    fail. *)
Lemma short_row_never_reaches_consumer_witness :
  let platform := scripted [] in
  let row := [CInt 1; CStr (py "Pest"); CStr (py "Szeged"); CInt 1] in
  let s := initial [] [answer (candidates [(py "Szeged", code_of "123")])] in
  exists e s',
    forall B (body : B -> PollingStation -> M B) (acc : B),
      polling_stations_row 0 body acc row s = (Raise e, s').
Proof.
  intros platform row s.
  apply (short_row_never_reaches_consumer 0 row s); [reflexivity|].
  cbn. lia.
Defined.

Section RunsMore.
Context {platform : Platform}.

Lemma foldM_unchanged {A B} (f : B -> A -> M B) l acc s :
  (forall a, a ∈ l -> forall acc0 s0, f acc0 a s0 = (Ok acc0, s0)) ->
  foldM f l acc s = (Ok acc, s).
Proof.
  induction l as [|a l IH]; intros Hall; [done|].
  cbn [foldM]. unfold bind. rewrite Hall by left.
  apply IH. intros a' Ha'. apply Hall. by right.
Qed.

(** A loop whose completed turns each add a known amount to a measure of
    the state has added the sum of the amounts when it completes. *)
Lemma foldM_measure {A B} (f : B -> A -> M B) (mu : state -> Z)
    (amount : A -> nat) :
  (forall acc a s acc' s',
      f acc a s = (Ok acc', s') -> mu s' = (mu s + Z.of_nat (amount a))%Z) ->
  forall l acc s acc' s',
    foldM f l acc s = (Ok acc', s') ->
    mu s' = (mu s + Z.of_nat (sum_list_with amount l))%Z.
Proof.
  intros Hstep l. induction l as [|a l IH]; intros acc s acc' s' Hrun.
  - injection Hrun as <- <-. cbn. lia.
  - cbn [foldM] in Hrun.
    apply bind_Ok in Hrun as (acc1 & s1 & Hf & Hrest).
    apply Hstep in Hf. apply IH in Hrest. cbn [sum_list_with]. lia.
Qed.

Lemma get_settlement_code_Ok_measure name code s s' :
  get_settlement_code name s = (Ok code, s') ->
  uncached_requests s' = uncached_requests s.
Proof.
  unfold uncached_requests.
  destruct (SETTLEMENT_CODE_CACHE s !! name) as [c|] eqn:Hc.
  - rewrite (get_settlement_code_hit _ _ _ Hc). by intros [= _ <-].
  - rewrite (get_settlement_code_miss _ _ Hc).
    destruct (session_get _ _) as [[resp|e] w]; [|done]. cbn zeta.
    destruct (select_code name resp) as [code'|e]; [|done].
    intros [= _ <-]. cbn [requests SETTLEMENT_CODE_CACHE after_request].
    rewrite length_app, map_size_insert_None by done. cbn [length]. lia.
Qed.

Lemma fetch_step_Ok_measure acc ps s acc' s' :
  fetch_step collect acc ps s = (Ok acc', s') ->
  uncached_requests s' = (uncached_requests s + 1)%Z.
Proof.
  unfold uncached_requests. intros Hstep.
  destruct (session_get (map_data_request ps) (net s)) as [[resp|e] w]
    eqn:Hget.
  - rewrite (fetch_step_response _ _ _ _ _ _ Hget) in Hstep.
    apply collect_appends in Hstep as [_ ->].
    cbn [requests SETTLEMENT_CODE_CACHE after_request].
    rewrite length_app. cbn [length]. lia.
  - by rewrite (fetch_step_transport _ _ _ _ _ _ Hget) in Hstep.
Qed.

Lemma sum_list_skipped rows :
  sum_list_with (fun row => if skipped row then 0 else 1) rows =
  length (retained_rows rows).
Proof.
  induction rows as [|row rows IH]; [done|].
  cbn [sum_list_with retained_rows List.filter]. fold (retained_rows rows).
  destruct (skipped row); cbn [negb length]; lia.
Qed.

Lemma sum_list_retained (sheets : list (nat * worksheet)) :
  sum_list_with (fun ir => length (retained_of_sheet ir)) sheets =
  length (concat (map retained_of_sheet sheets)).
Proof.
  induction sheets as [|ir sheets IH]; [done|].
  cbn [map sum_list_with concat]. rewrite length_app. lia.
Qed.

Lemma enumerate_elem_of {A} (l : list A) i x :
  (i, x) ∈ enumerate l -> x ∈ l.
Proof. unfold enumerate. apply elem_of_zip_r. Qed.

#[global] Instance sent_to_base_url_refl : Reflexive sent_to_base_url.
Proof. intros s. exists []. by rewrite app_nil_r. Qed.

#[global] Instance sent_to_base_url_trans : Transitive sent_to_base_url.
Proof.
  intros s1 s2 s3 (r12 & H12 & Hall12) (r23 & H23 & Hall23).
  exists (r12 ++ r23). split.
  - by rewrite H23, H12, app_assoc.
  - by apply Forall_app.
Qed.

Lemma get_settlement_code_sent name s :
  sent_to_base_url s (get_settlement_code name s).2.
Proof.
  exists (lookup_requests name s). split; [apply lookup_requests_eq|].
  unfold lookup_requests. destruct (_ !! name); by repeat constructor.
Qed.

Lemma http_get_sent req s :
  url req = API_BASE_URL -> sent_to_base_url s (http_get req s).2.
Proof.
  intros Hurl. rewrite http_get_eq. exists [req]. by repeat constructor.
Qed.

End RunsMore.

(** X10.  A sheet with no row at all, not even a header, stops the run:
    once the sheets before it have been dealt with, unpacking its rows
    raises [ValueError], and nothing is printed. *)
Theorem sheet_without_rows_aborts_run
    {platform : Platform} (workbook : list worksheet) (k : nat)
    (sheet : worksheet) (s s0 : state) (acc0 : list Feature) :
  workbook !! k = Some sheet ->
  values sheet = [] ->
  foldM (polling_stations_sheet (fetch_step collect))
    (take k (enumerate workbook)) [] s = (Ok acc0, s0) ->
  run workbook s = (Raise ValueError, s0) /\ stdout s0 = stdout s.
Proof.
  intros Hsheet Hvalues Hsheets.
  assert (run workbook s = (Raise ValueError, s0)) as Hrun.
  { unfold run, bind.
    assert (fetch_polling_station_geometries workbook collect [] s
            = (Raise ValueError, s0)) as ->; [|done].
    unfold fetch_polling_station_geometries, polling_stations.
    rewrite <- (take_drop_middle (enumerate workbook) k (k, sheet))
      by by apply enumerate_lookup.
    eapply foldM_raise; [exact Hsheets|].
    unfold polling_stations_sheet. cbn [fst snd]. by rewrite Hvalues. }
  split; [done|]. by eapply run_raise_prints_nothing.
Qed.

Lemma sheet_without_rows_aborts_run_witness :
  let platform := scripted [] in
  let workbook :=
    [ Worksheet (py "Pest") [header_row]; Worksheet (py "empty") [] ] in
  let s := initial [] [] in
  run workbook s = (Raise ValueError, s) /\ stdout s = stdout s.
Proof.
  intros platform workbook s.
  exact (sheet_without_rows_aborts_run workbook 1 (Worksheet (py "empty") [])
           s s [] eq_refl eq_refl eq_refl).
Defined.

(** X11.  When every sheet has a header and every row after it has [None]
    in its first cell (in particular when the workbook has no sheet, or
    only headers), [run] prints the empty collection, sends no request and
    leaves the cache as it is. *)
Theorem workbook_without_stations_prints_empty_collection
    {platform : Platform} (workbook : list worksheet) (s : state) :
  Forall (fun sheet =>
            values sheet <> [] /\
            Forall (fun row => skipped row = true) (data_rows sheet))
    workbook ->
  run workbook s =
    (Ok tt,
     mkState (SETTLEMENT_CODE_CACHE s) (net s) (requests s)
       (stdout s ++ [mkFeatureCollection []])).
Proof.
  intros Hall. unfold run, bind.
  assert (fetch_polling_station_geometries workbook collect [] s = (Ok [], s))
    as ->; [|done].
  unfold fetch_polling_station_geometries, polling_stations.
  apply foldM_unchanged. intros [i sheet] Hin acc0 s0.
  apply enumerate_elem_of in Hin.
  rewrite Forall_forall in Hall. destruct (Hall sheet Hin) as [Hne Hrows].
  unfold polling_stations_sheet, data_rows in *. cbn [fst snd].
  destruct (values sheet) as [|header rows]; [done|]. cbn [tail] in Hrows.
  apply foldM_unchanged. intros row Hrow acc1 s1.
  apply polling_stations_row_skip.
  rewrite Forall_forall in Hrows. by apply Hrows.
Qed.

Lemma workbook_without_stations_prints_empty_collection_witness :
  let platform := scripted [] in
  let workbook :=
    [ Worksheet (py "Pest") [header_row];
      Worksheet (py "Csongrad") [header_row; data_row CNone "" "" 0 0] ] in
  let s := initial [] [] in
  run workbook s =
    (Ok tt,
     mkState (SETTLEMENT_CODE_CACHE s) (net s) (requests s)
       (stdout s ++ [mkFeatureCollection []])).
Proof.
  intros platform workbook s.
  apply (workbook_without_stations_prints_empty_collection workbook s).
  repeat constructor; discriminate.
Defined.

(** X12.  A run that completes has sent one map-data request for every
    retained row and one search request for every entry the cache has
    gained, and nothing else: the number of requests grows by the number
    of retained rows plus the growth of the cache. *)
Theorem completed_run_request_count
    {platform : Platform} (workbook : list worksheet) (s s' : state) :
  run workbook s = (Ok tt, s') ->
  length (requests s') + size (SETTLEMENT_CODE_CACHE s) =
    length (requests s) + size (SETTLEMENT_CODE_CACHE s')
    + length (retained workbook).
Proof.
  intros Hrun. unfold run in Hrun.
  apply bind_Ok in Hrun as (fs & s0 & Hfetch & Hprint).
  injection Hprint as <-.
  cbn [requests SETTLEMENT_CODE_CACHE].
  unfold fetch_polling_station_geometries, polling_stations in Hfetch.
  apply (foldM_measure _ uncached_requests
           (fun ir => length (retained_of_sheet ir))) in Hfetch.
  - rewrite sum_list_retained in Hfetch. fold (retained workbook) in Hfetch.
    unfold uncached_requests in Hfetch. lia.
  - clear. intros acc [i sheet] s acc' s' Hsheet.
    unfold polling_stations_sheet, retained_of_sheet, data_rows in *.
    cbn [fst snd] in *.
    destruct (values sheet) as [|header rows]; [done|]. cbn [tail].
    rewrite length_map, <- sum_list_skipped.
    revert Hsheet. apply foldM_measure. clear.
    intros acc row s acc' s' Hrow.
    destruct (skipped row) eqn:Hskip.
    + rewrite polling_stations_row_skip in Hrow by done.
      injection Hrow as _ <-. lia.
    + rewrite polling_stations_row_emit in Hrow by done.
      apply emit_record_inv
        in Hrow as (z & name & code & s1 & props & _ & _ & Hcode & _ & Hstep).
      apply get_settlement_code_Ok_measure in Hcode.
      apply fetch_step_Ok_measure in Hstep. lia.
Qed.

(** Two stations of one settlement: three requests, one new entry. *)
Lemma completed_run_request_count_witness :
  let platform := scripted [] in
  let workbook :=
    [ Worksheet (py "Csongrad")
        [ header_row; data_row (CInt 1) "Csongrad" "Szeged" 1 5;
          data_row (CInt 2) "Csongrad" "Szeged" 2 5 ] ] in
  let s :=
    initial []
      [ answer (candidates [(py "Szeged", code_of "123")]);
        answer JNull; answer JNull ] in
  length (requests (run workbook s).2) + size (SETTLEMENT_CODE_CACHE s) =
    length (requests s) + size (SETTLEMENT_CODE_CACHE (run workbook s).2)
    + length (retained workbook).
Proof.
  intros platform workbook s.
  exact (completed_run_request_count workbook s _
           (completed tt (run workbook s) eq_refl)).
Defined.

(** A relation between a state and a later one that the lookup passes on
    is passed on by the adapter, for a consumer that passes it on. *)
Section Passing.
Context {platform : Platform}.
Context (Q : state -> state -> Prop) `{!Reflexive Q, !Transitive Q}.
Context (Q_resolve : forall name s, Q s (get_settlement_code name s).2).

Lemma bind_passes {A B} (m : M A) (f : A -> M B) s :
  Q s (m s).2 -> (forall a s1, Q s1 (f a s1).2) -> Q s (bind m f s).2.
Proof using Type*.
  intros Hm Hf. unfold bind. destruct (m s) as [[a|e] s1]; cbn [snd] in *.
  - by etrans.
  - done.
Qed.

Lemma foldM_passes {A B} (f : B -> A -> M B) :
  (forall acc a s, Q s (f acc a s).2) ->
  forall l acc s, Q s (foldM f l acc s).2.
Proof using Type*.
  intros Hf l. induction l as [|a l IH]; intros acc s; cbn [foldM]; [done|].
  by apply bind_passes.
Qed.

Lemma polling_stations_passes {B} (body : B -> PollingStation -> M B) :
  (forall acc ps s, Q s (body acc ps s).2) ->
  forall workbook acc s, Q s (polling_stations workbook body acc s).2.
Proof using Type*.
  intros Hbody workbook. apply foldM_passes. intros acc [i sheet] s.
  unfold polling_stations_sheet. cbn [fst snd].
  destruct (values sheet) as [|header rows]; [done|].
  apply foldM_passes. clear acc s. intros acc row s.
  unfold polling_stations_row. apply bind_passes; [done|].
  intros first s1. destruct first; [done|..];
    (unfold emit_record;
     apply bind_passes; [done|]; intros ? ?;
     apply bind_passes; [done|]; intros ? ?;
     apply bind_passes; [done|]; intros settlement_cell ?;
     apply bind_passes;
       [destruct settlement_cell; [done|done|done|apply Q_resolve]|];
     intros ? ?; apply bind_passes; [done|]; intros ? ?;
     apply Hbody).
Qed.

End Passing.

Section ParamsMore.
Context {platform : Platform}.

Lemma station_api_params_other station_no code county_code k :
  k ∉ station_keys ->
  station_api_params station_no code county_code !! k = None.
Proof.
  intros Hk. unfold station_api_params, station_keys in *.
  rewrite !lookup_insert_ne by set_solver. apply lookup_empty.
Qed.

Lemma station_api_params_size station_no code county_code :
  size (station_api_params station_no code county_code) = 3.
Proof.
  unfold station_api_params.
  rewrite !map_size_insert_None, map_size_empty; [done|..].
  - apply lookup_empty.
  - rewrite lookup_insert_ne by (apply (bool_decide_unpack _); by vm_compute).
    apply lookup_empty.
  - rewrite !lookup_insert_ne
      by (apply (bool_decide_unpack _); by vm_compute).
    apply lookup_empty.
Qed.

Lemma station_keys_fresh :
  Forall (fun k => API_GET_MAP_DATA_PARAMS !! k = None) station_keys.
Proof. apply (bool_decide_unpack _). by vm_compute. Qed.

End ParamsMore.

(** X13.  The parameters of the request for a station's map data are the
    nine fixed ones of [API_GET_MAP_DATA_PARAMS], none of them replaced,
    and the three of the record: its station number, its settlement code
    and its county code. *)
Theorem map_data_request_parameters
    {platform : Platform} (ps : PollingStation)
    (station_no county_code : pystr) (settlement_code : json) :
  api_params ps = station_api_params station_no settlement_code county_code ->
  url (map_data_request ps) = API_BASE_URL /\
  params (map_data_request ps) !! STATION_NO_param = Some (JStr station_no) /\
  params (map_data_request ps) !! SETTLEMENT_CODE_param
    = Some settlement_code /\
  params (map_data_request ps) !! COUNTY_CODE_param
    = Some (JStr county_code) /\
  (forall k, k ∉ station_keys ->
     params (map_data_request ps) !! k = API_GET_MAP_DATA_PARAMS !! k) /\
  Forall (fun k => API_GET_MAP_DATA_PARAMS !! k = None) station_keys /\
  size API_GET_MAP_DATA_PARAMS = 9 /\
  size (params (map_data_request ps)) = 12.
Proof.
  intros Hparams.
  cbn [map_data_request params url]. unfold map_data_params, merge_dicts.
  rewrite Hparams. split_and!.
  - done.
  - apply lookup_union_Some_l, station_api_params_station.
  - apply lookup_union_Some_l, station_api_params_settlement.
  - apply lookup_union_Some_l, station_api_params_county.
  - intros k Hk. by rewrite lookup_union_r by by apply station_api_params_other.
  - apply station_keys_fresh.
  - by vm_compute.
  - rewrite map_size_disj_union.
    + rewrite station_api_params_size.
      assert (size API_GET_MAP_DATA_PARAMS = 9) as -> by by vm_compute. done.
    + apply map_disjoint_alt. intros k.
      destruct (decide (k ∈ station_keys)) as [Hk|Hk].
      * right. pose proof station_keys_fresh as Hfresh.
        rewrite Forall_forall in Hfresh. by apply Hfresh.
      * left. by apply station_api_params_other.
Qed.

Lemma map_data_request_parameters_witness :
  let platform := scripted [] in
  let ps :=
    mkPollingStation (station_api_params (py "7") (code_of "123") (py "03"))
      [] in
  size (params (map_data_request ps)) = 12.
Proof.
  intros platform ps.
  exact (proj2 (proj2 (proj2 (proj2 (proj2 (proj2 (proj2
    (map_data_request_parameters ps (py "7") (py "03") (code_of "123")
       eq_refl)))))))).
Defined.

(** X14.  Whatever the workbook and however the run ends, every request
    that [run] sends goes to [API_BASE_URL], and the requests sent before
    stay on record in their order. *)
Theorem run_requests_go_to_base_url
    {platform : Platform} (workbook : list worksheet) (s : state) :
  exists reqs,
    requests (run workbook s).2 = requests s ++ reqs /\
    Forall (fun req => url req = API_BASE_URL) reqs.
Proof.
  unfold run, bind.
  assert (sent_to_base_url s
            (fetch_polling_station_geometries workbook collect [] s).2)
    as (reqs & Hreqs & Hall).
  { apply (polling_stations_passes sent_to_base_url
             get_settlement_code_sent).
    intros acc ps s0. unfold fetch_step.
    apply (bind_passes sent_to_base_url get_settlement_code_sent);
      [by apply http_get_sent|].
    intros resp s1. reflexivity. }
  exists reqs.
  destruct (fetch_polling_station_geometries workbook collect [] s)
    as [[fs|e] s0]; cbn [snd] in *; done.
Qed.

(** X15.  [run] prints all or nothing: when it completes it has printed
    exactly one collection, and when it raises, whatever the exception, it
    has printed nothing. *)
Theorem run_prints_all_or_nothing
    {platform : Platform} (workbook : list worksheet) (s : state) :
  match (run workbook s).1 with
  | Ok _ =>
      exists fs,
        stdout (run workbook s).2 = stdout s ++ [mkFeatureCollection fs]
  | Raise _ => stdout (run workbook s).2 = stdout s
  end.
Proof.
  destruct (run workbook s) as [[[]|e] s'] eqn:Hrun; cbn [fst snd].
  - unfold run in Hrun. apply bind_Ok in Hrun as (fs & s0 & Hfetch & Hprint).
    exists fs. injection Hprint as <-. cbn [stdout].
    pose proof (fetch_prints_nothing workbook [] s) as Hout.
    rewrite Hfetch in Hout. cbn [snd] in Hout. by rewrite Hout.
  - by eapply run_raise_prints_nothing.
Qed.

(** ** The fetcher *)

Section FetcherMore.
Context {platform : Platform}.

Lemma rmapM_Forall2 {A B} (f : A -> result B) l ys :
  Forall2 (fun a b => f a = Ok b) l ys -> rmapM f l = Ok ys.
Proof.
  induction 1 as [|a b l ys Hab _ IH]; [done|].
  cbn [rmapM]. by rewrite Hab, IH.
Qed.

Lemma rmapM_first_failure {A B} (f : A -> result B) pre a post e :
  Forall (fun x => is_ok (f x) = true) pre ->
  f a = Raise e ->
  rmapM f (pre ++ a :: post) = Raise e.
Proof.
  induction 1 as [|x pre Hx _ IH]; intros Ha; cbn [app rmapM].
  - by rewrite Ha.
  - destruct (f x); [|done]. cbn [rbind]. by rewrite IH.
Qed.

Lemma fetch_geometry_paths resp data text :
  json_body resp = Ok data ->
  paths_text data = Some text ->
  fetch_geometry resp =
    (paths <~ json_loads text ;;
     points <~ iter_json paths ;;
     pairs <~ rmapM point_pair points ;;
     shape <~ Polygon pairs ;;
     mapping shape)%result.
Proof.
  intros Hbody Htext. unfold fetch_geometry, paths_text in *.
  rewrite Hbody. cbn [rbind].
  destruct (getitem data (py "polygon")) as [pf|]; [|done]. cbn [rbind].
  destruct (getitem pf (py "paths")) as [[]|]; try done.
  by injection Htext as ->.
Qed.

End FetcherMore.

(** X16.  When the body of the response holds a text at
    [data["polygon"]["paths"]] and that text decodes to something iterable
    whose elements all have [lng] and [lat], [Polygon] is given the pairs
    (lng, lat), one for each element and in the order of the payload,
    whatever else the elements hold; the geometry is what [Polygon] and
    [mapping] make of them. *)
Theorem polygon_receives_points_longitude_first
    {platform : Platform} (resp : response) (data paths : json)
    (text : pystr) (points : list json) (pairs : list (json * json)) :
  json_body resp = Ok data ->
  paths_text data = Some text ->
  json_loads text = Ok paths ->
  iter_json paths = Ok points ->
  Forall2
    (fun p xy =>
       getitem p (py "lng") = Ok xy.1 /\ getitem p (py "lat") = Ok xy.2)
    points pairs ->
  fetch_geometry resp = rbind (Polygon pairs) mapping /\
  length pairs = length points.
Proof.
  intros Hbody Htext Hloads Hiter Hpoints.
  rewrite (fetch_geometry_paths _ _ _ Hbody Htext), Hloads. cbn [rbind].
  rewrite Hiter. cbn [rbind]. split; [|symmetry; by eapply Forall2_length].
  rewrite (rmapM_Forall2 point_pair points pairs); [done|].
  eapply Forall2_impl; [exact Hpoints|].
  intros p [lng lat] [Hlng Hlat]. unfold point_pair.
  cbn [fst snd] in *. by rewrite Hlng, Hlat.
Qed.

(** Points with a member besides the coordinates, latitude first. *)
Lemma polygon_receives_points_longitude_first_witness :
  let text := py "payload" in
  let p (lat lng : Z) :=
    JObj [ (py "lat", JInt lat); (py "id", JNull); (py "lng", JInt lng) ] in
  let payload := JArr [p 46 20; p 47 21; p 46 22]%Z in
  let platform := scripted [(text, payload)] in
  let resp := mkResponse 200 (Ok (map_data text)) in
  fetch_geometry resp =
    rbind (Polygon [ (JInt 20, JInt 46); (JInt 21, JInt 47);
                     (JInt 22, JInt 46) ]) mapping.
Proof.
  intros text p payload platform resp.
  refine (proj1 (polygon_receives_points_longitude_first resp (map_data text)
                   payload text [p 46 20; p 47 21; p 46 22]%Z
                   [ (JInt 20, JInt 46); (JInt 21, JInt 47);
                     (JInt 22, JInt 46) ]
                   eq_refl eq_refl eq_refl eq_refl _)).
  repeat constructor.
Defined.

(** X17.  When one element of the decoded payload lacks [lng] or [lat] (or
    is not a dict), the error of the first such element ends the [try]
    block: the geometry is null although the other elements may be
    complete, and no polygon is built from them. *)
Theorem incomplete_point_gives_null_geometry
    {platform : Platform} (resp : response) (data paths : json)
    (text : pystr) (pre post : list json) (bad : json) (e : exn) :
  json_body resp = Ok data ->
  paths_text data = Some text ->
  json_loads text = Ok paths ->
  iter_json paths = Ok (pre ++ bad :: post) ->
  Forall (fun p => is_ok (point_pair p) = true) pre ->
  point_pair bad = Raise e ->
  fetch_geometry resp = Raise e /\ try_geometry resp = None.
Proof.
  intros Hbody Htext Hloads Hiter Hpre Hbad.
  assert (fetch_geometry resp = Raise e) as Hfetch.
  { rewrite (fetch_geometry_paths _ _ _ Hbody Htext), Hloads. cbn [rbind].
    rewrite Hiter. cbn [rbind].
    by rewrite (rmapM_first_failure point_pair pre bad post e). }
  split; [done|]. unfold try_geometry. by rewrite Hfetch.
Qed.

(** Three complete points and a fourth without latitude. *)
Lemma incomplete_point_gives_null_geometry_witness :
  let text := py "payload" in
  let p (lat lng : Z) := JObj [(py "lat", JInt lat); (py "lng", JInt lng)] in
  let bad := JObj [(py "lng", JInt 23)] in
  let payload := JArr [p 46 20; p 47 21; p 46 22; bad]%Z in
  let platform := scripted [(text, payload)] in
  let resp := mkResponse 200 (Ok (map_data text)) in
  fetch_geometry resp = Raise (KeyError (py "lat")) /\
  try_geometry resp = None.
Proof.
  intros text p bad payload platform resp.
  refine (incomplete_point_gives_null_geometry resp (map_data text) payload
            text [p 46 20; p 47 21; p 46 22]%Z [] bad (KeyError (py "lat"))
            eq_refl eq_refl eq_refl eq_refl _ eq_refl).
  repeat constructor.
Defined.

(** X18.  When the body of the response cannot be read as JSON, or holds no
    text at [data["polygon"]["paths"]] (it is not a dict, a key is missing,
    or the value is not a string), the geometry is null; neither
    [json.loads] nor [Polygon] has a say. *)
Theorem payload_without_paths_text_gives_null_geometry
    {platform : Platform} (resp : response) :
  match json_body resp with
  | Ok data => paths_text data = None
  | Raise _ => True
  end ->
  try_geometry resp = None.
Proof.
  intros Hbody. unfold try_geometry, fetch_geometry, paths_text in *.
  destruct (json_body resp) as [data|]; [|done]. cbn [rbind].
  destruct (getitem data (py "polygon")) as [pf|]; [|done]. cbn [rbind].
  destruct (getitem pf (py "paths")) as [[]|]; try done.
Qed.

(** A body whose polygon has no paths. *)
Lemma payload_without_paths_text_gives_null_geometry_witness :
  @try_geometry (scripted [])
    (mkResponse 200 (Ok (JObj [(py "polygon", JObj [])]))) = None.
Proof.
  apply (@payload_without_paths_text_gives_null_geometry (scripted [])).
  reflexivity.
Defined.

(** ** Records and the cache *)

Section CacheMore.
Context {platform : Platform}.

#[global] Instance cache_kept_refl : Reflexive cache_kept.
Proof. by intros s k v. Qed.

#[global] Instance cache_kept_trans : Transitive cache_kept.
Proof. intros s1 s2 s3 H12 H23 k v Hk. by apply H23, H12. Qed.

Lemma get_settlement_code_cache_kept name s :
  cache_kept s (get_settlement_code name s).2.
Proof. intros k v. apply get_settlement_code_keeps. Qed.

Lemma carries_cached_code_kept s s' row ps :
  cache_kept s s' ->
  carries_cached_code s row ps -> carries_cached_code s' row ps.
Proof.
  intros Hkept (name & code & Hname & Hcode & Hps).
  exists name, code. split_and!; [done| |done]. by apply Hkept.
Qed.

Lemma rows_carry_cached_code i rows acc s acc' s' :
  foldM (polling_stations_row i collect) rows acc s = (Ok acc', s') ->
  cache_kept s s' /\
  exists recs,
    acc' = acc ++ recs /\
    Forall2 (carries_cached_code s') (retained_rows rows) recs.
Proof.
  revert acc s. induction rows as [|row rows IH]; intros acc s Hrun.
  - injection Hrun as <- <-. split; [done|]. exists []. by rewrite app_nil_r.
  - cbn [foldM] in Hrun.
    apply bind_Ok in Hrun as (acc1 & s1 & Hrow & Hrest).
    apply IH in Hrest as (Hkept & recs & -> & Hall).
    cbn [retained_rows List.filter]. fold (retained_rows rows).
    destruct (skipped row) eqn:Hskip; cbn [negb].
    + rewrite polling_stations_row_skip in Hrow by done.
      injection Hrow as <- <-. split; [done|]. by exists recs.
    + rewrite polling_stations_row_emit in Hrow by done.
      apply emit_record_inv
        in Hrow as (z & name & code & s2 & props & _ & Hname & Hcode & _
                    & Hcollect).
      apply collect_appends in Hcollect as [-> ->].
      assert (cache_kept s s2) as Hstep.
      { pose proof (get_settlement_code_cache_kept name s) as Hk.
        by rewrite Hcode in Hk. }
      split; [by etrans|]. eexists (_ :: recs).
      split; [by rewrite <- app_assoc|]. constructor; [|done].
      apply (carries_cached_code_kept s2); [done|].
      exists name, code. split_and!.
      * unfold index in Hname.
        by destruct (row !! column_value SETTLEMENT) as [[]|];
          simplify_eq.
      * by eapply get_settlement_code_stores.
      * apply station_api_params_settlement.
Qed.

Lemma sheets_carry_cached_code (sheets : list (nat * worksheet)) acc s
    acc' s' :
  foldM (polling_stations_sheet collect) sheets acc s = (Ok acc', s') ->
  cache_kept s s' /\
  exists recs,
    acc' = acc ++ recs /\
    Forall2 (fun ir ps => carries_cached_code s' ir.2 ps)
      (concat (map retained_of_sheet sheets)) recs.
Proof.
  revert acc s. induction sheets as [|[i sheet] sheets IH]; intros acc s Hrun.
  - injection Hrun as <- <-. split; [done|]. exists []. by rewrite app_nil_r.
  - cbn [foldM] in Hrun.
    apply bind_Ok in Hrun as (acc1 & s1 & Hsheet & Hrest).
    apply IH in Hrest as (Hkept & recs & -> & Hall).
    unfold polling_stations_sheet in Hsheet. cbn [fst snd] in Hsheet.
    destruct (values sheet) as [|header rows] eqn:Hvalues; [done|].
    apply rows_carry_cached_code in Hsheet as (Hkept1 & recs1 & -> & Hall1).
    split; [by etrans|]. exists (recs1 ++ recs).
    split; [by rewrite app_assoc|].
    cbn [map concat]. apply Forall2_app; [|done].
    unfold retained_of_sheet, data_rows. cbn [fst snd]. rewrite Hvalues.
    cbn [tail]. apply Forall2_fmap_l.
    eapply Forall2_impl; [exact Hall1|].
    intros row ps Hps. by apply (carries_cached_code_kept s1).
Qed.

End CacheMore.

(** X19.  When the adapter completes, the record of every retained row
    carries, as its settlement code, the code that the cache holds at the
    end for the settlement of that row; so two records of the same
    settlement carry the same code. *)
Theorem records_carry_cached_codes
    {platform : Platform} (workbook : list worksheet) (s s' : state)
    (recs : list PollingStation) :
  polling_stations workbook collect [] s = (Ok recs, s') ->
  Forall2 (fun ir ps => carries_cached_code s' ir.2 ps)
    (retained workbook) recs /\
  (forall k1 k2 ir1 ir2 ps1 ps2,
      retained workbook !! k1 = Some ir1 -> recs !! k1 = Some ps1 ->
      retained workbook !! k2 = Some ir2 -> recs !! k2 = Some ps2 ->
      ir1.2 !! column_value SETTLEMENT = ir2.2 !! column_value SETTLEMENT ->
      api_params ps1 !! SETTLEMENT_CODE_param =
      api_params ps2 !! SETTLEMENT_CODE_param).
Proof.
  intros Hrun. unfold polling_stations in Hrun.
  apply sheets_carry_cached_code in Hrun as (_ & recs' & Heq & Hall).
  cbn [app] in Heq. subst recs'. fold (retained workbook) in Hall.
  split; [done|].
  intros k1 k2 ir1 ir2 ps1 ps2 Hir1 Hps1 Hir2 Hps2 Hsame.
  destruct (Forall2_lookup_lr _ _ _ _ _ _ Hall Hir1 Hps1)
    as (name1 & code1 & Hname1 & Hcode1 & ->).
  destruct (Forall2_lookup_lr _ _ _ _ _ _ Hall Hir2 Hps2)
    as (name2 & code2 & Hname2 & Hcode2 & ->).
  congruence.
Qed.

(** Two stations of Szeged, looked up once. *)
Lemma records_carry_cached_codes_witness :
  let platform := scripted [] in
  let workbook :=
    [ Worksheet (py "Csongrad")
        [ header_row; data_row (CInt 1) "Csongrad" "Szeged" 1 5;
          data_row (CInt 2) "Csongrad" "Szeged" 2 5 ] ] in
  let s := initial [] [answer (candidates [(py "Szeged", code_of "123")])] in
  exists recs s',
    polling_stations workbook collect [] s = (Ok recs, s') /\
    Forall2 (fun ir ps => carries_cached_code s' ir.2 ps)
      (retained workbook) recs.
Proof.
  intros platform workbook s.
  pose proof (completed [] (polling_stations workbook collect [] s) eq_refl)
    as Hrun.
  eexists _, _. split; [exact Hrun|].
  exact (proj1 (records_carry_cached_codes workbook s _ _ Hrun)).
Defined.
